(** * Ohmyfin Node.js SDK: a shallow embedding of the client and its contract

    The client ([src/unnamed/part_000]) is one class with a constructor, a
    private request helper and four public operations.  The embedding follows
    the source line by line:

    - JavaScript values are an inductive type [value]; numbers are IEEE-754
      doubles ([PrimFloat.float]), objects are association lists of own
      properties;
    - [truthy], [js_or] and [get_prop] are the language's [!x], [a || b] and
      [o.k];
    - exceptions and I/O are threaded by a small writer-and-error monad [M]
      whose log records every call made on the transport;
    - the asynchronous part of [_request] is a step function over the events
      that the transport delivers to the registered listeners, together with
      a promise that settles at most once.

    What the platform provides ([new URL], [JSON.parse], [Number::toString],
    [http.request] / [https.request] and the network behind them) is a
    record [Host]; every theorem holds for every host. *)

From Stdlib Require Import String Ascii List ZArith Bool Lia PrimFloat.
Import ListNotations.
Open Scope string_scope.

(** ** Values *)

#[local] Set Warnings "-register-all".

Inductive value : Type :=
| VUndefined
| VNull
| VBool (b : bool)
| VNum (n : float)
| VStr (s : string)
| VArr (items : list value)
| VObj (props : list (string * value)).

(** [!!v]: [undefined], [null], [false], [+0], [-0], [NaN] and the empty
    string are falsy, everything else (every array and object too) is
    truthy. *)
Definition truthy (v : value) : bool :=
  match v with
  | VUndefined | VNull => false
  | VBool b => b
  | VNum n =>
      match PrimFloat.classify n with
      | FloatClass.PZero | FloatClass.NZero | FloatClass.NaN => false
      | _ => true
      end
  | VStr s => negb (s =? "")
  | VArr _ | VObj _ => true
  end.

(** [a || b] *)
Definition js_or (a b : value) : value := if truthy a then a else b.

(** Own property of an object, first binding of the key. *)
Fixpoint own (props : list (string * value)) (k : string) : option value :=
  match props with
  | [] => None
  | (k', v) :: rest => if k' =? k then Some v else own rest k
  end.

(** ** Exceptions

    [Error] is the language's plain error, thrown by the constructor and by
    the operations' field checks; [TypeError] and [SyntaxError] are what the
    runtime raises;
    [OhmyfinError] is the class of the source, with its three fields;
    [TransportError] stands for whatever error object the request emits on
    its ['error'] event. *)
Inductive exn : Type :=
| Error (message : string)
| TypeError (message : string)
| SyntaxError (message : string)
| OhmyfinError (message : string) (statusCode : Z) (errors : value)
| TransportError (code : string).

Definition is_OhmyfinError (e : exn) : bool :=
  match e with OhmyfinError _ _ _ => true | _ => false end.

Definition is_plain_Error (e : exn) : bool :=
  match e with Error _ => true | _ => false end.

(** [v.k] for the property names the source reads ([apiKey], [baseUrl],
    [timeout], [message], [errors], [uetr], [ref], [amount], [date],
    [currency], [status], [role], [beneficiary_bic], [swift]): none of them
    is defined by a built-in prototype, so the lookup is the own property
    for an object and [undefined] for an array or a primitive; reading a
    property of [undefined] or [null] throws. *)
Definition get_prop (v : value) (k : string) : exn + value :=
  match v with
  | VUndefined =>
      inl (TypeError ("Cannot read properties of undefined (reading '" ++ k ++ "')"))
  | VNull =>
      inl (TypeError ("Cannot read properties of null (reading '" ++ k ++ "')"))
  | VObj props =>
      inr (match own props k with Some x => x | None => VUndefined end)
  | VBool _ | VNum _ | VStr _ | VArr _ => inr VUndefined
  end.

(** ** The platform *)

Inductive library : Type := https | http.

Module URL.
Record t : Type := mk {
  protocol : string;
  hostname : string;
  port : string;
  pathname : string;
  search : string
}.
End URL.

Module Options.
Record t : Type := mk {
  hostname : string;
  port : value;
  path : string;
  method : string;
  headers : list (string * value);
  timeout : value
}.
End Options.

(** What the transport delivers to the listeners of one request:
    the response callback, ['data'] and ['end'] on the response, ['error']
    and ['timeout'] on the request. *)
Inductive event : Type :=
| EvResponse (statusCode : Z)
| EvData (chunk : string)
| EvEnd
| EvError (code : string)
| EvTimeout.

Record Host : Type := {
  (** [new URL(path, base)]; throws on an invalid URL *)
  new_URL : string -> value -> exn + URL.t;
  (** [JSON.parse(body)]; throws on text that is not JSON *)
  JSON_parse : string -> exn + value;
  (** [Number::toString] *)
  Number_toString : float -> string;
  (** [lib.request(options, callback)]: throws synchronously, or returns a
      request to which these events will be delivered, in this order *)
  lib_request : library -> Options.t -> exn + list event
}.

(** ** Effects

    Calls made on the transport, in program order.  [IoWrite data] is
    [req.write(JSON.stringify(data))]: it records the value handed to the
    serialiser, not the text the serialiser makes of it. *)
Inductive io : Type :=
| IoRequest (lib : library) (o : Options.t)
| IoWrite (data : value)
| IoEnd
| IoDestroy.

Definition M (A : Type) : Type := ((exn + A) * list io)%type.

Definition ret {A : Type} (a : A) : M A := (inr a, []).
Definition throw {A : Type} (e : exn) : M A := (inl e, []).
Definition emit (x : io) : M unit := (inr tt, [x]).
Definition lift {A : Type} (r : exn + A) : M A := (r, []).

Definition bind {A B : Type} (m : M A) (k : A -> M B) : M B :=
  match m with
  | (inl e, l) => (inl e, l)
  | (inr a, l) => let (r, l') := k a in (r, (l ++ l')%list)
  end.

Declare Scope js_scope.
Delimit Scope js_scope with js.
Notation "x <- m ;; k" := (bind m (fun x => k))
  (at level 61, m at next level, right associativity) : js_scope.
Notation "m ;;; k" := (bind m (fun _ => k))
  (at level 61, right associativity) : js_scope.
Open Scope js_scope.

(** ** The client *)

Record client : Type := {
  apiKey : value;
  baseUrl : value;
  timeout : value
}.

(** [constructor(config)] *)
Definition Ohmyfin (config : value) : M client :=
  missing <- (if negb (truthy config) then ret true
              else k <- lift (get_prop config "apiKey") ;; ret (negb (truthy k))) ;;
  if missing : bool then
    throw (Error "API key is required. Get your API key at https://ohmyfin.ai")
  else
    k <- lift (get_prop config "apiKey") ;;
    b <- lift (get_prop config "baseUrl") ;;
    t <- lift (get_prop config "timeout") ;;
    ret {| apiKey := k;
           baseUrl := js_or b (VStr "https://ohmyfin.ai");
           timeout := js_or t (VNum 30000%float) |}.

(** ** [class OhmyfinError extends Error] *)

Section WithHost.

Variable host : Host.

(** The string conversion that [Error]'s constructor applies to its
    argument.  An array joins its elements with commas ([undefined] and
    [null] elements give the empty string).  A parsed JSON object inherits
    [Object.prototype.toString] unless it has an own [toString] property,
    which cannot be callable, and then the conversion throws. *)
Fixpoint ToString (v : value) : exn + string :=
  match v with
  | VUndefined => inr "undefined"
  | VNull => inr "null"
  | VBool true => inr "true"
  | VBool false => inr "false"
  | VNum n => inr (Number_toString host n)
  | VStr s => inr s
  | VArr items =>
      (fix join (l : list value) : exn + string :=
         match l with
         | [] => inr ""
         | x :: rest =>
             let first :=
               match x with
               | VUndefined | VNull => inr ""
               | _ => ToString x
               end in
             match first, rest with
             | inl e, _ => inl e
             | inr s, [] => inr s
             | inr s, _ :: _ =>
                 match join rest with
                 | inl e => inl e
                 | inr r => inr (s ++ "," ++ r)
                 end
             end
         end) items
  | VObj props =>
      match own props "toString" with
      | Some _ => inl (TypeError "Cannot convert object to primitive value")
      | None => inr "[object Object]"
      end
  end.

(** [new OhmyfinError(message, statusCode, errors)]: [super(message)] sets
    the message to [ToString(message)] unless the argument is [undefined]. *)
Definition new_OhmyfinError (message : value) (statusCode : Z) (errors : value)
  : exn + exn :=
  match message with
  | VUndefined => inr (OhmyfinError "" statusCode errors)
  | _ =>
      match ToString message with
      | inl e => inl e
      | inr s => inr (OhmyfinError s statusCode errors)
      end
  end.

(** ** [_request] *)

Inductive settlement : Type :=
| Resolved (v : value)
| Rejected (e : exn).

(** [resolve] and [reject] act on a pending promise only. *)
Definition settle (p : option settlement) (s : settlement) : option settlement :=
  match p with
  | None => Some s
  | Some _ => p
  end.

(** The ['end'] listener: the body of the [try], then the [catch]. *)
Definition on_end (statusCode : Z) (body : string) : settlement :=
  let attempt : M settlement :=
    json <- lift (JSON_parse host body) ;;
    if (400 <=? statusCode)%Z then
      m <- lift (get_prop json "message") ;;
      errs <- lift (get_prop json "errors") ;;
      e <- lift (new_OhmyfinError (js_or m (VStr "API request failed")) statusCode errs) ;;
      ret (Rejected e)
    else
      ret (Resolved json)
  in
  match fst attempt with
  | inr s => s
  | inl _ => Rejected (OhmyfinError "Invalid JSON response" statusCode VUndefined)
  end.

(** The listeners' view of one request: the response received (its status
    code), the body accumulated so far, the promise, and the calls the
    listeners made on the request.  The callback given to [lib.request]
    runs for the first response only; ['data'] and ['end'] have a listener
    once it has run.  A chunk is the text that [body += chunk] appends. *)
Record listening : Type := {
  res : option Z;
  body : string;
  promise : option settlement;
  calls : list io
}.

Definition pending : listening :=
  {| res := None; body := ""; promise := None; calls := [] |}.

Definition step (s : listening) (ev : event) : listening :=
  match ev with
  | EvResponse statusCode =>
      match res s with
      | None =>
          {| res := Some statusCode; body := ""; promise := promise s; calls := calls s |}
      | Some _ => s
      end
  | EvData chunk =>
      match res s with
      | Some _ =>
          {| res := res s; body := body s ++ chunk; promise := promise s; calls := calls s |}
      | None => s
      end
  | EvEnd =>
      match res s with
      | Some statusCode =>
          {| res := res s; body := body s;
             promise := settle (promise s) (on_end statusCode (body s));
             calls := calls s |}
      | None => s
      end
  | EvError code =>
      {| res := res s; body := body s;
         promise := settle (promise s) (Rejected (TransportError code));
         calls := calls s |}
  | EvTimeout =>
      {| res := res s; body := body s;
         promise := settle (promise s) (Rejected (OhmyfinError "Request timeout" 408 VUndefined));
         calls := (calls s ++ [IoDestroy])%list |}
  end.

Definition deliver (evs : list event) (s : listening) : listening :=
  fold_left step evs s.

(** [lib.request(options, callback)] *)
Definition request (lib : library) (o : Options.t) : M (list event) :=
  match lib_request host lib o with
  | inl e => throw e
  | inr evs => emit (IoRequest lib o) ;;; ret evs
  end.

Definition request_options (this : client) (url : URL.t) (method : string) : Options.t :=
  let isHttps := URL.protocol url =? "https:" in
  {| Options.hostname := URL.hostname url;
     Options.port := js_or (VStr (URL.port url))
                           (if isHttps then VNum 443%float else VNum 80%float);
     Options.path := URL.pathname url ++ URL.search url;
     Options.method := method;
     Options.headers := [ ("KEY", apiKey this);
                          ("Content-Type", VStr "application/json");
                          ("Accept", VStr "application/json");
                          ("User-Agent", VStr "ohmyfin-node/1.0.0") ];
     Options.timeout := timeout this |}.

(** The outcome of an asynchronous call once every event has been
    delivered: the state of the promise it returned ([None]: still
    pending) and the calls it made on the transport. *)
Record run : Type := {
  outcome : option settlement;
  log : list io
}.

(** The promise executor of [_request]; an exception it throws rejects the
    promise. *)
Definition executor (this : client) (method path : string) (data : value)
  : M (list event) :=
  url <- lift (new_URL host path (baseUrl this)) ;;
  let isHttps := URL.protocol url =? "https:" in
  let lib := if isHttps then https else http in
  let options := request_options this url method in
  evs <- request lib options ;;
  (if truthy data then emit (IoWrite data) else ret tt) ;;;
  emit IoEnd ;;;
  ret evs.

Definition _request (this : client) (method path : string) (data : value) : run :=
  let data := match data with VUndefined => VNull | _ => data end in
  match executor this method path data with
  | (inl e, l) => {| outcome := Some (Rejected e); log := l |}
  | (inr evs, l) =>
      let s := deliver evs pending in
      {| outcome := promise s; log := (l ++ calls s)%list |}
  end.

(** ** The four operations *)

(** [!params.k] *)
Definition lacks (params : value) (k : string) : M bool :=
  v <- lift (get_prop params k) ;; ret (negb (truthy v)).

(** [a && b] and [a || b] on conditions, evaluated left to right *)
Definition and_then (a b : M bool) : M bool :=
  x <- a ;; if x : bool then b else ret false.

Definition or_else (a b : M bool) : M bool :=
  x <- a ;; if x : bool then ret true else b.

(** What the body of an [async] method returns. *)
Inductive returned : Type :=
| Call_request (method path : string) (data : value).

(** An [async] method: a throw rejects the promise, [return this._request(..)]
    adopts the promise of the request. *)
Definition async (this : client) (body : M returned) : run :=
  match body with
  | (inl e, l) => {| outcome := Some (Rejected e); log := l |}
  | (inr (Call_request method path data), l) =>
      let r := _request this method path data in
      {| outcome := outcome r; log := (l ++ log r)%list |}
  end.

Definition track_body (params : value) : M returned :=
  no_id <- and_then (lacks params "uetr") (lacks params "ref") ;;
  if no_id : bool then throw (Error "Either uetr or ref is required") else
  incomplete <- or_else (or_else (lacks params "amount") (lacks params "date"))
                  (lacks params "currency") ;;
  if incomplete : bool then throw (Error "amount, date, and currency are required") else
  ret (Call_request "POST" "/api/track" params).

Definition change_body (params : value) : M returned :=
  no_id <- and_then (lacks params "uetr") (lacks params "ref") ;;
  if no_id : bool then throw (Error "Either uetr or ref is required") else
  incomplete <- or_else (lacks params "status") (lacks params "role") ;;
  if incomplete : bool then throw (Error "status and role are required") else
  ret (Call_request "POST" "/api/change" params).

Definition validate_body (params : value) : M returned :=
  incomplete <- or_else (lacks params "beneficiary_bic") (lacks params "currency") ;;
  if incomplete : bool then throw (Error "beneficiary_bic and currency are required") else
  ret (Call_request "POST" "/api/validate" params).

Definition getSSI_body (params : value) : M returned :=
  incomplete <- or_else (lacks params "swift") (lacks params "currency") ;;
  if incomplete : bool then throw (Error "swift and currency are required") else
  ret (Call_request "POST" "/api/getssi" params).

Definition track (this : client) (params : value) : run :=
  async this (track_body params).

Definition change (this : client) (params : value) : run :=
  async this (change_body params).

Definition validate (this : client) (params : value) : run :=
  async this (validate_body params).

Definition getSSI (this : client) (params : value) : run :=
  async this (getSSI_body params).

Inductive operation : Type := Track | Change | Validate | GetSSI.

Definition body_of (op : operation) : value -> M returned :=
  match op with
  | Track => track_body
  | Change => change_body
  | Validate => validate_body
  | GetSSI => getSSI_body
  end.

Definition call (op : operation) (this : client) (params : value) : run :=
  match op with
  | Track => track this params
  | Change => change this params
  | Validate => validate this params
  | GetSSI => getSSI this params
  end.

End WithHost.

(** ** Vocabulary of the contract *)

Definition nullish (v : value) : bool :=
  match v with
  | VUndefined | VNull => true
  | _ => false
  end.

(** The value of a field of a call's argument; [undefined] when the field
    is not there. *)
Definition field (params : value) (k : string) : value :=
  match get_prop params k with
  | inr v => v
  | inl _ => VUndefined
  end.

(** A field is absent when reading it gives [undefined]; it is supplied
    with a usable value when what it holds is truthy. *)
Definition absent (params : value) (k : string) : Prop :=
  get_prop params k = inr VUndefined.

Definition has (params : value) (k : string) : bool :=
  truthy (field params k).

(** The required fields of section 4.3 of the specification. *)
Inductive requirement : Type :=
| Field (k : string)
| Either (k1 k2 : string).

Definition required (op : operation) : list requirement :=
  match op with
  | Track => [Either "uetr" "ref"; Field "amount"; Field "date"; Field "currency"]
  | Change => [Either "uetr" "ref"; Field "status"; Field "role"]
  | Validate => [Field "beneficiary_bic"; Field "currency"]
  | GetSSI => [Field "swift"; Field "currency"]
  end.

Definition omits (params : value) (r : requirement) : Prop :=
  match r with
  | Field k => absent params k
  | Either k1 k2 => absent params k1 /\ absent params k2
  end.

Definition lib_of (url : URL.t) : library :=
  if URL.protocol url =? "https:" then https else http.

(** [body += chunk] for every chunk, from the empty string. *)
Definition received (chunks : list string) : string :=
  fold_left append chunks "".

(** The transport answers the request of this call with a response of the
    given status whose body arrives in chunks and then ends. *)
Definition responds (host : Host) (op : operation) (this : client) (params : value)
  (statusCode : Z) (text : string) : Prop :=
  exists method path data url chunks rest,
    fst (body_of op params) = inr (Call_request method path data) /\
    new_URL host path (baseUrl this) = inr url /\
    lib_request host (lib_of url) (request_options this url method)
      = inr (EvResponse statusCode :: map EvData chunks ++ EvEnd :: rest)%list /\
    text = received chunks.

(** Events that leave the promise pending. *)
Definition quiet (ev : event) : bool :=
  match ev with
  | EvResponse _ | EvData _ => true
  | EvEnd | EvError _ | EvTimeout => false
  end.


(** The request of a call reaches the transport: the first calls logged are
    the creation of the request, the write of the argument and the end of
    the request. *)
Definition dispatched (host : Host) (this : client) (method path : string)
  (params : value) (r : run) : Prop :=
  forall url evs,
    new_URL host path (baseUrl this) = inr url ->
    lib_request host (lib_of url) (request_options this url method) = inr evs ->
    exists later,
      log r = IoRequest (lib_of url) (request_options this url method)
                :: IoWrite params :: IoEnd :: later.

Definition identifier_rejected (params : value) : Prop :=
  track_body params = throw (Error "Either uetr or ref is required").

Definition accepted_by_track (params : value) : Prop :=
  track_body params = ret (Call_request "POST" "/api/track" params).

(** The identifier check of [track] as the specification words it: it
    fails exactly when both fields are absent. *)
Definition identifier_rejected_iff_absent (params : value) : Prop :=
  identifier_rejected params <-> absent params "uetr" /\ absent params "ref".

(** The amount check of [track] as the specification words it: any number
    will do, as long as the field is there. *)
Definition track_accepts_any_amount (params : value) : Prop :=
  has params "uetr" = true \/ has params "ref" = true ->
  (exists n, field params "amount" = VNum n) ->
  has params "date" = true ->
  has params "currency" = true ->
  accepted_by_track params.

(** The credential of a configuration; [undefined] when there is no
    configuration or no [apiKey] in it. *)
Definition credential (config : value) : value := field config "apiKey".

Definition missing_or_empty (v : value) : Prop :=
  v = VUndefined \/ v = VStr "".

(** [apiKey: string] of [index.d.ts], for a caller that may leave it out. *)
Definition string_or_missing (v : value) : Prop :=
  v = VUndefined \/ exists s, v = VStr s.

Definition ConfigurationError : exn :=
  Error "API key is required. Get your API key at https://ohmyfin.ai".

(** The error of a failed response as the specification words it: the
    status of the response, the payload's [message] when it has one and
    the fixed text when it has none, the payload's [errors] when it has
    them. *)
Definition api_error_as_specified (json : value) (statusCode : Z)
  (o : option settlement) : Prop :=
  exists message errors,
    o = Some (Rejected (OhmyfinError message statusCode errors)) /\
    (field json "message" <> VUndefined -> VStr message = field json "message") /\
    (field json "message" = VUndefined -> message = "API request failed") /\
    (field json "errors" <> VUndefined -> errors = field json "errors").

(** A requirement is met when the field, or one of the two alternatives,
    holds a truthy value. *)
Definition holds (params : value) (r : requirement) : bool :=
  match r with
  | Field k => has params k
  | Either k1 k2 => has params k1 || has params k2
  end.

(** The message of the check that an operation runs after the identifier
    check (its only check, for [validate] and [getSSI]). *)
Definition fields_message (op : operation) : string :=
  match op with
  | Track => "amount, date, and currency are required"
  | Change => "status and role are required"
  | Validate => "beneficiary_bic and currency are required"
  | GetSSI => "swift and currency are required"
  end.

Definition is_timeout (ev : event) : bool :=
  match ev with
  | EvTimeout => true
  | _ => false
  end.

(** How many times the transport signals ['timeout']. *)
Definition timeouts (evs : list event) : nat :=
  length (filter is_timeout evs).

Definition is_request (x : io) : bool :=
  match x with
  | IoRequest _ _ => true
  | _ => false
  end.

(** The headers of every request of a client. *)
Definition headers_of (this : client) : list (string * value) :=
  [ ("KEY", apiKey this);
    ("Content-Type", VStr "application/json");
    ("Accept", VStr "application/json");
    ("User-Agent", VStr "ohmyfin-node/1.0.0") ].

(** ** Test doubles

    A host that resolves paths against the default base address only, parses
    the handful of documents the examples use, and whose transport delivers
    a scripted list of events.  No example converts a number to a string. *)

Definition dq : string := String "034"%char "".

Definition doc_empty_message : string :=
  "{" ++ dq ++ "message" ++ dq ++ ":" ++ dq ++ dq ++ "}".

Definition doc_not_found : string :=
  "{" ++ dq ++ "message" ++ dq ++ ":" ++ dq ++ "not found" ++ dq ++ "}".

Definition double_parse (text : string) : exn + value :=
  if text =? "null" then inr VNull
  else if text =? "{}" then inr (VObj [])
  else if text =? "[]" then inr (VArr [])
  else if text =? doc_empty_message then inr (VObj [("message", VStr "")])
  else if text =? doc_not_found then inr (VObj [("message", VStr "not found")])
  else inl (SyntaxError "Unexpected token").

Definition default_url (path : string) : URL.t :=
  {| URL.protocol := "https:"; URL.hostname := "ohmyfin.ai"; URL.port := "";
     URL.pathname := path; URL.search := "" |}.

Definition double_URL (path : string) (base : value) : exn + URL.t :=
  match base with
  | VStr b =>
      if b =? "https://ohmyfin.ai" then inr (default_url path)
      else inl (TypeError "Invalid URL")
  | _ => inl (TypeError "Invalid URL")
  end.

Definition double (script : list event) : Host :=
  {| new_URL := double_URL;
     JSON_parse := double_parse;
     Number_toString := fun _ => "0";
     lib_request := fun _ _ => inr script |}.

Definition a_client : client :=
  {| apiKey := VStr "secret";
     baseUrl := VStr "https://ohmyfin.ai";
     timeout := VNum 30000%float |}.

Definition a_track : value :=
  VObj [ ("uetr", VStr "97ed4827-7b6f-4491-a06f-b548d5a7512d");
         ("amount", VNum 10000%float);
         ("date", VStr "2024-01-15");
         ("currency", VStr "USD") ].

Definition params_of (op : operation) : value :=
  match op with
  | Track => a_track
  | Change =>
      VObj [ ("uetr", VStr "97ed4827-7b6f-4491-a06f-b548d5a7512d");
             ("status", VStr "success");
             ("role", VStr "correspondent") ]
  | Validate =>
      VObj [ ("beneficiary_bic", VStr "DEUTDEFF"); ("currency", VStr "EUR") ]
  | GetSSI =>
      VObj [ ("swift", VStr "DEUTDEFF"); ("currency", VStr "EUR") ]
  end.

Definition track_empty_uetr : value :=
  VObj [ ("uetr", VStr "");
         ("amount", VNum 10000%float);
         ("date", VStr "2024-01-15");
         ("currency", VStr "USD") ].

Definition track_zero_amount : value :=
  VObj [ ("uetr", VStr "97ed4827-7b6f-4491-a06f-b548d5a7512d");
         ("amount", VNum 0%float);
         ("date", VStr "2024-01-15");
         ("currency", VStr "USD") ].

Definition track_negative_amount : value :=
  VObj [ ("ref", VStr "INV-1");
         ("amount", VNum (-5)%float);
         ("date", VStr "2024-01-15");
         ("currency", VStr "USD") ].

Definition path_of (op : operation) : string :=
  match op with
  | Track => "/api/track"
  | Change => "/api/change"
  | Validate => "/api/validate"
  | GetSSI => "/api/getssi"
  end.

Definition config_zero_timeout : value :=
  VObj [("apiKey", VStr "secret"); ("baseUrl", VStr ""); ("timeout", VNum 0%float)].

Definition answers_400 (text : string) : Host :=
  double [EvResponse 400; EvData text; EvEnd].

(** A host on a development machine: plain HTTP on an explicit port. *)
Definition local_url (path : string) : URL.t :=
  {| URL.protocol := "http:"; URL.hostname := "localhost"; URL.port := "8080";
     URL.pathname := path; URL.search := "" |}.

Definition local_URL (path : string) (base : value) : exn + URL.t :=
  match base with
  | VStr b =>
      if b =? "http://localhost:8080" then inr (local_url path)
      else inl (TypeError "Invalid URL")
  | _ => inl (TypeError "Invalid URL")
  end.

Definition local_double (script : list event) : Host :=
  {| new_URL := local_URL;
     JSON_parse := double_parse;
     Number_toString := fun _ => "0";
     lib_request := fun _ _ => inr script |}.

Definition a_local_client : client :=
  {| apiKey := VStr "secret";
     baseUrl := VStr "http://localhost:8080";
     timeout := VNum 5000%float |}.

(** A client whose base address is not a URL. *)
Definition a_lost_client : client :=
  {| apiKey := VStr "secret";
     baseUrl := VStr "ohmyfin";
     timeout := VNum 30000%float |}.

(** A host whose [lib.request] throws, as Node does on a header value
    with a line break in it. *)
Definition refusing : Host :=
  {| new_URL := double_URL;
     JSON_parse := double_parse;
     Number_toString := fun _ => "0";
     lib_request := fun _ _ => inl (TypeError "Invalid character in header content") |}.

(** A call passes the checks of its operation: the body returns the
    request of the operation with the argument. *)
Definition passes_checks (op : operation) (params : value) : Prop :=
  body_of op params = ret (Call_request "POST" (path_of op) params).

(** The message of the check that rejects a call: [track] and [change]
    test the identifier first. *)
Definition complaint (op : operation) (params : value) : string :=
  match op with
  | Track | Change =>
      if has params "uetr" || has params "ref" then fields_message op
      else "Either uetr or ref is required"
  | Validate | GetSSI => fields_message op
  end.

(** The four ways a call runs: stopped by its own checks, by the base
    address, by the creation of the request, or dispatched. *)
Inductive course (host : Host) (op : operation) (this : client) (params : value)
  : Prop :=
| Stopped_by_check (e : exn)
    (Hbody : body_of op params = throw e)
    (Hrun : call host op this params = {| outcome := Some (Rejected e); log := [] |})
| Stopped_by_address (e : exn)
    (Hbody : body_of op params = ret (Call_request "POST" (path_of op) params))
    (Hurl : new_URL host (path_of op) (baseUrl this) = inl e)
    (Hrun : call host op this params = {| outcome := Some (Rejected e); log := [] |})
| Stopped_by_transport (url : URL.t) (e : exn)
    (Hbody : body_of op params = ret (Call_request "POST" (path_of op) params))
    (Hurl : new_URL host (path_of op) (baseUrl this) = inr url)
    (Hreq : lib_request host (lib_of url) (request_options this url "POST") = inl e)
    (Hrun : call host op this params = {| outcome := Some (Rejected e); log := [] |})
| Dispatched (url : URL.t) (evs : list event)
    (Hbody : body_of op params = ret (Call_request "POST" (path_of op) params))
    (Hurl : new_URL host (path_of op) (baseUrl this) = inr url)
    (Hreq : lib_request host (lib_of url) (request_options this url "POST") = inr evs)
    (Hrun : call host op this params =
              {| outcome := promise (deliver host evs pending);
                 log := IoRequest (lib_of url) (request_options this url "POST")
                          :: IoWrite params :: IoEnd
                          :: repeat IoDestroy (timeouts evs) |}).

(** A field is supplied when reading it gives something other than
    [undefined]. *)
Definition supplied (params : value) (k : string) : Prop :=
  exists v, get_prop params k = inr v /\ v <> VUndefined.

(** The checks of [change] as the specification words them: a call that
    supplies an identifier, a status and a role and omits [amount], [date]
    and [currency] passes. *)
Definition change_accepts_supplied (params : value) : Prop :=
  supplied params "uetr" \/ supplied params "ref" ->
  supplied params "status" ->
  supplied params "role" ->
  absent params "amount" -> absent params "date" -> absent params "currency" ->
  change_body params = ret (Call_request "POST" "/api/change" params).

Definition change_empty_uetr : value :=
  VObj [ ("uetr", VStr ""); ("status", VStr "success"); ("role", VStr "other") ].




(** An error document whose [message] is an object with a [toString]
    entry, and the host that parses it. *)
Definition doc_stubborn : string :=
  "{" ++ dq ++ "message" ++ dq ++ ":{" ++ dq ++ "toString" ++ dq ++ ":1},"
      ++ dq ++ "errors" ++ dq ++ ":{" ++ dq ++ "ref" ++ dq ++ ":["
      ++ dq ++ "bad" ++ dq ++ "]}}".

Definition stubborn_payload : value :=
  VObj [ ("message", VObj [("toString", VNum 1%float)]);
         ("errors", VObj [("ref", VArr [VStr "bad"])]) ].

Definition stubborn_double (script : list event) : Host :=
  {| new_URL := double_URL;
     JSON_parse := fun text =>
       if text =? doc_stubborn then inr stubborn_payload else double_parse text;
     Number_toString := fun _ => "0";
     lib_request := fun _ _ => inr script |}.

(** * Properties *)

(** ** Reading fields *)

Lemma get_prop_field (p : value) (k : string) :
  nullish p = false -> get_prop p k = inr (field p k).
Proof.
  unfold field. destruct p; simpl; intros H; try discriminate H; reflexivity.
Qed.

Lemma absent_not_nullish (p : value) (k : string) :
  absent p k -> nullish p = false.
Proof.
  unfold absent. destruct p; simpl; intros H; try discriminate H; reflexivity.
Qed.

Lemma absent_has (p : value) (k : string) : absent p k -> has p k = false.
Proof.
  unfold absent, has, field. intros ->. reflexivity.
Qed.

Lemma has_not_nullish (p : value) (k : string) :
  has p k = true -> nullish p = false.
Proof.
  unfold has, field. destruct p; simpl; intros H; try discriminate H; reflexivity.
Qed.

Lemma lacks_field (p : value) (k : string) :
  nullish p = false -> lacks p k = ret (negb (has p k)).
Proof.
  intros H. unfold lacks, lift, has. rewrite (get_prop_field p k H). reflexivity.
Qed.

(** ** The field checks, as decision tables

    For an argument that is not [undefined] or [null], each operation's
    body is a cascade of tests on the truthiness of its fields. *)

Lemma track_body_eq (p : value) :
  nullish p = false ->
  track_body p =
    if negb (has p "uetr") && negb (has p "ref")
    then throw (Error "Either uetr or ref is required")
    else if negb (has p "amount") || negb (has p "date") || negb (has p "currency")
    then throw (Error "amount, date, and currency are required")
    else ret (Call_request "POST" "/api/track" p).
Proof.
  intros H. unfold track_body, and_then, or_else.
  rewrite !(lacks_field p _ H).
  destruct (has p "uetr"), (has p "ref"), (has p "amount"), (has p "date"),
    (has p "currency"); reflexivity.
Qed.

Lemma change_body_eq (p : value) :
  nullish p = false ->
  change_body p =
    if negb (has p "uetr") && negb (has p "ref")
    then throw (Error "Either uetr or ref is required")
    else if negb (has p "status") || negb (has p "role")
    then throw (Error "status and role are required")
    else ret (Call_request "POST" "/api/change" p).
Proof.
  intros H. unfold change_body, and_then, or_else.
  rewrite !(lacks_field p _ H).
  destruct (has p "uetr"), (has p "ref"), (has p "status"), (has p "role");
    reflexivity.
Qed.

Lemma validate_body_eq (p : value) :
  nullish p = false ->
  validate_body p =
    if negb (has p "beneficiary_bic") || negb (has p "currency")
    then throw (Error "beneficiary_bic and currency are required")
    else ret (Call_request "POST" "/api/validate" p).
Proof.
  intros H. unfold validate_body, or_else.
  rewrite !(lacks_field p _ H).
  destruct (has p "beneficiary_bic"), (has p "currency"); reflexivity.
Qed.

Lemma getSSI_body_eq (p : value) :
  nullish p = false ->
  getSSI_body p =
    if negb (has p "swift") || negb (has p "currency")
    then throw (Error "swift and currency are required")
    else ret (Call_request "POST" "/api/getssi" p).
Proof.
  intros H. unfold getSSI_body, or_else.
  rewrite !(lacks_field p _ H).
  destruct (has p "swift"), (has p "currency"); reflexivity.
Qed.

Lemma call_async (host : Host) (op : operation) (this : client) (p : value) :
  call host op this p = async host this (body_of op p).
Proof. destruct op; reflexivity. Qed.

Lemma async_throw (host : Host) (this : client) (b : M returned) (e : exn) :
  b = throw e ->
  async host this b = {| outcome := Some (Rejected e); log := [] |}.
Proof. intros ->. reflexivity. Qed.

Lemma async_request (host : Host) (this : client) (b : M returned)
  (method path : string) (data : value) :
  b = ret (Call_request method path data) ->
  async host this b = _request host this method path data.
Proof.
  intros ->. unfold async, ret. simpl.
  destruct (_request host this method path data); reflexivity.
Qed.

(** ** Local validation *)

Ltac decide_fields :=
  repeat match goal with
         | H : absent _ _ /\ absent _ _ |- _ => destruct H
         | H : absent ?p ?k |- _ => rewrite (absent_has p k H); clear H
         end;
  repeat match goal with
         | |- context [has ?p ?k] => destruct (has p k)
         end;
  simpl.

Lemma omitted_field_throws (op : operation) (p : value) (r : requirement) :
  In r (required op) -> omits p r ->
  exists msg, body_of op p = throw (Error msg).
Proof.
  intros Hin Hom.
  assert (Hn : nullish p = false).
  { destruct r; simpl in Hom; [| destruct Hom as [Hom _]];
      exact (absent_not_nullish _ _ Hom). }
  destruct op; simpl in Hin;
    repeat (destruct Hin as [<- | Hin]; [| try contradiction]);
    simpl in Hom; simpl body_of;
    rewrite ?(track_body_eq p Hn), ?(change_body_eq p Hn),
      ?(validate_body_eq p Hn), ?(getSSI_body_eq p Hn);
    decide_fields; eexists; reflexivity.
Qed.

(** C2. For every operation and every field that section 4.3 lists as
    required for it (for track and change the identifier counts as omitted
    when both [uetr] and [ref] are), a call that omits the field is rejected
    with a plain [Error] thrown by the operation's own check, which is not
    an [OhmyfinError]; the body never reaches [this._request(...)] and no
    call is made on the transport. *)
Theorem omitted_required_field_fails_locally
  (host : Host) (op : operation) (this : client) (params : value) (r : requirement) :
  In r (required op) -> omits params r ->
  exists e,
    body_of op params = throw e /\
    call host op this params = {| outcome := Some (Rejected e); log := [] |} /\
    is_plain_Error e = true /\
    is_OhmyfinError e = false.
Proof.
  intros Hin Hom.
  destruct (omitted_field_throws op params r Hin Hom) as [msg Hb].
  exists (Error msg). repeat split; trivial.
  rewrite call_async. now apply async_throw.
Qed.

(** A witness of C2: [track] without [currency]. *)
Lemma omitted_required_field_witness :
  exists e,
    body_of Track (VObj [("uetr", VStr "u"); ("amount", VNum 1%float); ("date", VStr "2024-01-15")])
      = throw e /\
    call (double []) Track a_client
      (VObj [("uetr", VStr "u"); ("amount", VNum 1%float); ("date", VStr "2024-01-15")])
      = {| outcome := Some (Rejected e); log := [] |} /\
    is_plain_Error e = true /\
    is_OhmyfinError e = false.
Proof.
  apply (omitted_required_field_fails_locally (double []) Track a_client
           (VObj [("uetr", VStr "u"); ("amount", VNum 1%float); ("date", VStr "2024-01-15")])
           (Field "currency")).
  - simpl. auto.
  - reflexivity.
Defined.

(** ** Dispatch *)

Lemma has_object (p : value) (k : string) :
  has p k = true -> exists props, p = VObj props.
Proof.
  unfold has, field. destruct p; simpl; intros H; try discriminate H.
  eexists; reflexivity.
Qed.

(** When the base address resolves and the transport accepts the request,
    [_request] creates the request, writes the serialized argument and ends
    the request; the promise and any later call are the listeners'. *)
Lemma _request_dispatches (host : Host) (this : client) (method path : string)
  (props : list (string * value)) (url : URL.t) (evs : list event) :
  new_URL host path (baseUrl this) = inr url ->
  lib_request host (lib_of url) (request_options this url method) = inr evs ->
  _request host this method path (VObj props) =
    {| outcome := promise (deliver host evs pending);
       log := IoRequest (lib_of url) (request_options this url method)
                :: IoWrite (VObj props) :: IoEnd
                :: calls (deliver host evs pending) |}.
Proof.
  intros Hurl Hreq. unfold _request, executor, lift, request.
  rewrite Hurl. unfold lib_of in Hreq. simpl.
  rewrite Hreq. reflexivity.
Qed.

Lemma accepted_dispatches (host : Host) (op : operation) (this : client)
  (method path : string) (props : list (string * value)) :
  body_of op (VObj props) = ret (Call_request method path (VObj props)) ->
  call host op this (VObj props) = _request host this method path (VObj props) /\
  dispatched host this method path (VObj props) (call host op this (VObj props)).
Proof.
  intros Hb.
  assert (Hc : call host op this (VObj props)
               = _request host this method path (VObj props)).
  { rewrite call_async. now apply async_request. }
  split; [exact Hc |].
  intros url evs Hurl Hreq. rewrite Hc.
  rewrite (_request_dispatches host this method path props url evs Hurl Hreq).
  eexists; reflexivity.
Qed.

(** ** [track]: the identifier *)

Lemma track_accepts (params : value) :
  has params "uetr" = true \/ has params "ref" = true ->
  has params "amount" = true ->
  has params "date" = true ->
  has params "currency" = true ->
  accepted_by_track params.
Proof.
  intros Hid Ha Hd Hc. unfold accepted_by_track.
  rewrite (track_body_eq params (has_not_nullish params "date" Hd)), Ha, Hd, Hc.
  destruct Hid as [-> | ->]; simpl; [| destruct (has params "uetr")]; reflexivity.
Qed.

(** C5, as stated, fails: [track({uetr: '', amount: 10000, date:
    '2024-01-15', currency: 'USD'})] is rejected by the identifier check
    although [uetr] is not absent. *)
Lemma empty_uetr_rejected_though_present :
  ~ identifier_rejected_iff_absent track_empty_uetr.
Proof.
  intros [Hfail _].
  assert (Hrej : identifier_rejected track_empty_uetr) by reflexivity.
  destruct (Hfail Hrej) as [Hu _].
  unfold absent in Hu. simpl in Hu. discriminate Hu.
Qed.

(** C5, amended. [track] tests its identifier for truthiness: for a call
    with an argument object, the identifier check fails if and only if each
    of [uetr] and [ref] is absent or holds a falsy value (such as the empty
    string); and a call holding truthy [amount], [date] and [currency] is
    accepted with [uetr] alone, with [ref] alone and with both. *)
Theorem track_identifier_check (params : value) :
  nullish params = false ->
  (identifier_rejected params <->
     has params "uetr" = false /\ has params "ref" = false) /\
  (has params "amount" = true -> has params "date" = true ->
   has params "currency" = true ->
   has params "uetr" = true \/ has params "ref" = true ->
   accepted_by_track params).
Proof.
  intros Hn. split; [| intros Ha Hd Hc Hid; now apply track_accepts].
  unfold identifier_rejected. rewrite (track_body_eq params Hn). split.
  - destruct (has params "uetr"), (has params "ref"); simpl; auto;
      destruct (has params "amount"), (has params "date"), (has params "currency");
      simpl; intros H; discriminate H.
  - intros [-> ->]. reflexivity.
Qed.

(** A witness of C5 (amended): the call of the source's own example. *)
Lemma track_identifier_check_witness :
  (identifier_rejected a_track <->
     has a_track "uetr" = false /\ has a_track "ref" = false) /\
  (has a_track "amount" = true -> has a_track "date" = true ->
   has a_track "currency" = true ->
   has a_track "uetr" = true \/ has a_track "ref" = true ->
   accepted_by_track a_track).
Proof.
  apply (track_identifier_check a_track). reflexivity.
Defined.

(** [uetr] alone, [ref] alone and both: each call reaches the transport. *)
Example track_accepts_three_shapes :
  log (call (double []) Track a_client a_track)
    = [ IoRequest https (request_options a_client (default_url "/api/track") "POST");
        IoWrite a_track; IoEnd ] /\
  log (call (double []) Track a_client track_negative_amount)
    = [ IoRequest https (request_options a_client (default_url "/api/track") "POST");
        IoWrite track_negative_amount; IoEnd ] /\
  accepted_by_track
    (VObj [ ("uetr", VStr "97ed4827-7b6f-4491-a06f-b548d5a7512d"); ("ref", VStr "INV-1");
            ("amount", VNum 10000%float); ("date", VStr "2024-01-15");
            ("currency", VStr "USD") ]).
Proof. repeat split. Qed.

(** ** [track]: the amount *)

(** C9, as stated, fails: with [amount: 0] the call is rejected. *)
Lemma zero_amount_rejected :
  ~ track_accepts_any_amount track_zero_amount /\
  call (double []) Track a_client track_zero_amount
    = {| outcome := Some (Rejected (Error "amount, date, and currency are required"));
         log := [] |}.
Proof.
  split; [| reflexivity].
  intros H.
  assert (Hacc : accepted_by_track track_zero_amount).
  { apply H; [left | exists 0%float | |]; reflexivity. }
  unfold accepted_by_track in Hacc. vm_compute in Hacc. discriminate Hacc.
Qed.

(** C9, amended. [track] tests [amount] for truthiness, not for its sign:
    of the calls holding a truthy identifier ([uetr] or [ref]), a truthy
    [date] and [currency] and a number as [amount], those whose amount is
    other than [0], [-0] and [NaN] (negative numbers included) pass the
    checks and have their request dispatched, and those whose amount is
    [0], [-0] or [NaN] are rejected by the check before any request. *)
Theorem track_amount_truthy_only (host : Host) (this : client) (params : value)
  (n : float) :
  has params "uetr" = true \/ has params "ref" = true ->
  field params "amount" = VNum n ->
  has params "date" = true ->
  has params "currency" = true ->
  (truthy (VNum n) = true ->
   accepted_by_track params /\
   call host Track this params = _request host this "POST" "/api/track" params /\
   dispatched host this "POST" "/api/track" params (call host Track this params)) /\
  (truthy (VNum n) = false ->
   call host Track this params
     = {| outcome := Some (Rejected (Error "amount, date, and currency are required"));
          log := [] |}).
Proof.
  intros Hid Ham Hd Hc.
  destruct (has_object params "date" Hd) as [props ->].
  assert (Ha : has (VObj props) "amount" = truthy (VNum n)).
  { unfold has. rewrite Ham. reflexivity. }
  split; intros Hn; rewrite Hn in Ha.
  - assert (Hacc : accepted_by_track (VObj props)) by now apply track_accepts.
    split; [exact Hacc |].
    exact (accepted_dispatches host Track this "POST" "/api/track" props Hacc).
  - rewrite call_async. apply async_throw. simpl body_of.
    rewrite (track_body_eq (VObj props) eq_refl), Ha.
    destruct Hid as [-> | ->]; simpl; [| destruct (has (VObj props) "uetr")];
      reflexivity.
Qed.

(** A witness of C9 (amended): a negative amount is accepted. *)
Lemma track_amount_truthy_only_witness :
  accepted_by_track track_negative_amount /\
  call (double []) Track a_client track_negative_amount
    = _request (double []) a_client "POST" "/api/track" track_negative_amount /\
  dispatched (double []) a_client "POST" "/api/track" track_negative_amount
    (call (double []) Track a_client track_negative_amount).
Proof.
  destruct (track_amount_truthy_only (double []) a_client track_negative_amount
              (-5)%float) as [Hpass _]; try reflexivity.
  - right. reflexivity.
  - apply Hpass. reflexivity.
Defined.


(** ** [change] *)

(** C6, as stated, fails: [change({uetr: '', status: 'success', role:
    'other'})] supplies an identifier, a status and a role, omits [amount],
    [date] and [currency], and is rejected by the identifier check. *)
Lemma empty_uetr_change_rejected :
  ~ change_accepts_supplied change_empty_uetr /\
  call (double []) Change a_client change_empty_uetr
    = {| outcome := Some (Rejected (Error "Either uetr or ref is required"));
         log := [] |}.
Proof.
  split; [| reflexivity].
  intros H.
  assert (Hacc : change_body change_empty_uetr
                 = ret (Call_request "POST" "/api/change" change_empty_uetr)).
  { apply H; try reflexivity;
      [left; exists (VStr "") | exists (VStr "success") | exists (VStr "other")];
      (split; [reflexivity | intros E; discriminate E]). }
  vm_compute in Hacc. discriminate Hacc.
Qed.

(** C6, amended. [change] tests the identifier, [status] and [role] for
    truthiness and tests nothing else: a call with an argument object
    passes the checks if and only if [uetr] or [ref], [status] and [role]
    hold truthy values (for the declared types, non-empty strings),
    whatever it holds, or omits, as [amount], [date] and [currency]; and
    the request [POST /api/change] of such a call is dispatched. *)
Theorem change_checks_identifier_status_role (host : Host) (this : client)
  (params : value) :
  nullish params = false ->
  (change_body params = ret (Call_request "POST" "/api/change" params) <->
     (has params "uetr" = true \/ has params "ref" = true) /\
     has params "status" = true /\ has params "role" = true) /\
  (has params "uetr" = true \/ has params "ref" = true ->
   has params "status" = true ->
   has params "role" = true ->
   call host Change this params = _request host this "POST" "/api/change" params /\
   dispatched host this "POST" "/api/change" params (call host Change this params)).
Proof.
  intros Hn.
  assert (Hiff : change_body params = ret (Call_request "POST" "/api/change" params) <->
                 (has params "uetr" = true \/ has params "ref" = true) /\
                 has params "status" = true /\ has params "role" = true).
  { rewrite (change_body_eq params Hn).
    destruct (has params "uetr"), (has params "ref"), (has params "status"),
      (has params "role"); simpl; split;
      try (intros H; discriminate H); intuition discriminate. }
  split; [exact Hiff |].
  intros Hid Hs Hr.
  destruct (has_object params "status" Hs) as [props ->].
  apply (accepted_dispatches host Change this "POST" "/api/change" props).
  apply Hiff. auto.
Qed.

(** A witness of C6: the call of [params_of Change] has no [amount], [date]
    or [currency]. *)
Lemma change_checks_identifier_status_role_witness :
  (absent (params_of Change) "amount" /\ absent (params_of Change) "date" /\
   absent (params_of Change) "currency") /\
  call (double []) Change a_client (params_of Change)
    = _request (double []) a_client "POST" "/api/change" (params_of Change) /\
  dispatched (double []) a_client "POST" "/api/change" (params_of Change)
    (call (double []) Change a_client (params_of Change)).
Proof.
  split; [repeat split |].
  destruct (change_checks_identifier_status_role (double []) a_client (params_of Change))
    as [_ Hgo]; [reflexivity |].
  apply Hgo; [left | |]; reflexivity.
Defined.

Example change_without_amount_log :
  log (call (double []) Change a_client (params_of Change))
    = [ IoRequest https (request_options a_client (default_url "/api/change") "POST");
        IoWrite (params_of Change); IoEnd ].
Proof. reflexivity. Qed.

(** ** The constructor *)

Lemma Ohmyfin_eq (config : value) :
  Ohmyfin config =
    if truthy (credential config)
    then ret {| apiKey := credential config;
                baseUrl := js_or (field config "baseUrl") (VStr "https://ohmyfin.ai");
                timeout := js_or (field config "timeout") (VNum 30000%float) |}
    else throw ConfigurationError.
Proof.
  unfold Ohmyfin, credential.
  destruct config as [ | | b | n | s | items | props]; try reflexivity.
  - destruct b; reflexivity.
  - unfold field; simpl.
    destruct (match classify n with
              | FloatClass.PZero | FloatClass.NZero | FloatClass.NaN => false
              | _ => true
              end); reflexivity.
  - unfold field; simpl. destruct (s =? ""); reflexivity.
  - unfold field, lift; simpl.
    destruct (truthy match own props "apiKey" with
                     | Some x => x
                     | None => VUndefined
                     end); reflexivity.
Qed.

Lemma truthy_js_or (a b : value) : truthy b = true -> truthy (js_or a b) = true.
Proof.
  intros Hb. unfold js_or. destruct (truthy a) eqn:Ha; [exact Ha | exact Hb].
Qed.

(** C7. For a configuration whose credential is a string or is missing,
    whatever its other fields are: construction throws the configuration
    error if and only if the credential is missing or empty; when it
    succeeds, the client holds the credential, the base address and the
    timeout of the configuration, with ["https://ohmyfin.ai"] and [30000]
    where those fields are absent; and construction makes no call on the
    transport. *)
Theorem constructor_requires_credential (config : value) :
  string_or_missing (credential config) ->
  (fst (Ohmyfin config) = inl ConfigurationError <->
     missing_or_empty (credential config)) /\
  (~ missing_or_empty (credential config) ->
   exists this,
     fst (Ohmyfin config) = inr this /\
     apiKey this = credential config /\
     baseUrl this = js_or (field config "baseUrl") (VStr "https://ohmyfin.ai") /\
     timeout this = js_or (field config "timeout") (VNum 30000%float) /\
     (field config "baseUrl" = VUndefined -> baseUrl this = VStr "https://ohmyfin.ai") /\
     (field config "timeout" = VUndefined -> timeout this = VNum 30000%float)) /\
  snd (Ohmyfin config) = [].
Proof.
  intros Hty. rewrite (Ohmyfin_eq config). unfold missing_or_empty.
  destruct Hty as [Hc | [s Hc]]; rewrite Hc; simpl.
  - repeat split; auto. intros H; exfalso; apply H; now left.
  - destruct (String.eqb_spec s "") as [-> | Hne]; simpl.
    + repeat split; auto. intros H; exfalso; apply H; now right.
    + split; [split |].
      * intros H; discriminate H.
      * intros [H | H]; [discriminate H | injection H as H; contradiction].
      * split; [| reflexivity]. intros _.
        eexists; split; [reflexivity |]. simpl.
        repeat split; try reflexivity; intros ->; reflexivity.
Qed.

(** A witness of C7: a configuration holding only a credential. *)
Lemma constructor_requires_credential_witness :
  exists this,
    fst (Ohmyfin (VObj [("apiKey", VStr "secret")])) = inr this /\
    apiKey this = VStr "secret" /\
    baseUrl this = VStr "https://ohmyfin.ai" /\
    timeout this = VNum 30000%float.
Proof.
  destruct (constructor_requires_credential (VObj [("apiKey", VStr "secret")]))
    as [_ [Hok _]].
  - right. exists "secret". reflexivity.
  - destruct Hok as [this [H1 [H2 [_ [_ [H3 H4]]]]]].
    + intros [H | H]; discriminate H.
    + exists this. repeat split; [exact H1 | exact H2 | apply H3 | apply H4];
        reflexivity.
Defined.

(** C10. The defaults are applied on falsiness: when the configuration
    holds a falsy base address or timeout (absent, but also [""], [0],
    [null], [false] or [NaN]), the client is built with
    ["https://ohmyfin.ai"], respectively [30000], in its place; so the
    timeout and the base address of a client are always truthy, and no
    client has a zero timeout. *)
Theorem defaults_replace_falsy_values (config : value) (this : client) :
  fst (Ohmyfin config) = inr this ->
  (truthy (field config "baseUrl") = false -> baseUrl this = VStr "https://ohmyfin.ai") /\
  (truthy (field config "timeout") = false -> timeout this = VNum 30000%float) /\
  truthy (baseUrl this) = true /\
  truthy (timeout this) = true /\
  timeout this <> VNum 0%float.
Proof.
  rewrite (Ohmyfin_eq config).
  destruct (truthy (credential config)); simpl; intros H; [| discriminate H].
  injection H as <-. simpl.
  assert (Ht : truthy (js_or (field config "timeout") (VNum 30000%float)) = true)
    by (apply truthy_js_or; reflexivity).
  repeat split.
  - unfold js_or. intros ->. reflexivity.
  - unfold js_or. intros ->. reflexivity.
  - apply truthy_js_or. reflexivity.
  - exact Ht.
  - intros H0. rewrite H0 in Ht. discriminate Ht.
Qed.

(** A witness of C10: [{apiKey: 'secret', baseUrl: '', timeout: 0}]. *)
Lemma defaults_replace_falsy_values_witness :
  Ohmyfin config_zero_timeout = ret a_client /\
  baseUrl a_client = VStr "https://ohmyfin.ai" /\
  timeout a_client = VNum 30000%float.
Proof.
  split; [reflexivity |].
  destruct (defaults_replace_falsy_values config_zero_timeout a_client eq_refl)
    as [Hb [Ht _]].
  split; [apply Hb | apply Ht]; reflexivity.
Defined.

(** ** The listeners *)

Lemma deliver_app (host : Host) (xs ys : list event) (s : listening) :
  deliver host (xs ++ ys) s = deliver host ys (deliver host xs s).
Proof. unfold deliver. apply fold_left_app. Qed.

Lemma deliver_data (host : Host) (chunks : list string) :
  forall s statusCode,
    res s = Some statusCode ->
    deliver host (map EvData chunks) s =
      {| res := res s; body := fold_left append chunks (body s);
         promise := promise s; calls := calls s |}.
Proof.
  induction chunks as [| c chunks IH]; intros s statusCode Hres.
  - destruct s; reflexivity.
  - simpl. rewrite Hres.
    rewrite (IH _ statusCode) by reflexivity. reflexivity.
Qed.

(** A promise settles once. *)
Lemma settled_stays (host : Host) (evs : list event) :
  forall s x, promise s = Some x -> promise (deliver host evs s) = Some x.
Proof.
  induction evs as [| ev evs IH]; intros s x Hs; [exact Hs |].
  simpl. apply IH.
  destruct ev; simpl; try destruct (res s); simpl; rewrite ?Hs; reflexivity.
Qed.


Lemma quiet_keeps_pending (host : Host) (evs : list event) :
  forall s,
    forallb quiet evs = true -> promise s = None ->
    promise (deliver host evs s) = None.
Proof.
  induction evs as [| ev evs IH]; intros s Hq Hs; [exact Hs |].
  simpl in Hq. apply andb_prop in Hq as [Hev Hq].
  simpl. apply IH; [exact Hq |].
  destruct ev; try discriminate Hev; simpl; try destruct (res s); exact Hs.
Qed.

(** A response that arrives whole settles the promise with what the
    ['end'] listener decides. *)
Lemma deliver_response (host : Host) (statusCode : Z) (chunks : list string)
  (rest : list event) :
  promise (deliver host (EvResponse statusCode :: map EvData chunks ++ EvEnd :: rest) pending)
    = Some (on_end host statusCode (received chunks)).
Proof.
  change (EvResponse statusCode :: map EvData chunks ++ EvEnd :: rest)%list
    with ([EvResponse statusCode] ++ map EvData chunks ++ [EvEnd] ++ rest)%list.
  rewrite !deliver_app.
  apply settled_stays.
  rewrite (deliver_data host chunks _ statusCode); reflexivity.
Qed.


Lemma _request_outcome (host : Host) (this : client) (method path : string)
  (data : value) (url : URL.t) (evs : list event) :
  new_URL host path (baseUrl this) = inr url ->
  lib_request host (lib_of url) (request_options this url method) = inr evs ->
  outcome (_request host this method path data) = promise (deliver host evs pending) /\
  forall c, In c (calls (deliver host evs pending)) ->
            In c (log (_request host this method path data)).
Proof.
  intros Hurl Hreq. unfold _request.
  set (d := match data with VUndefined => VNull | _ => data end).
  unfold executor, lift, request.
  rewrite Hurl. unfold lib_of in Hreq. simpl. rewrite Hreq.
  destruct (truthy d); simpl;
    (split; [reflexivity | intros c Hc; auto 6 using in_cons, in_or_app]).
Qed.

(** The promise of a call whose request goes out is the promise of that
    request. *)
Lemma call_outcome (host : Host) (op : operation) (this : client) (params : value)
  (method path : string) (data : value) (url : URL.t) (evs : list event) :
  fst (body_of op params) = inr (Call_request method path data) ->
  new_URL host path (baseUrl this) = inr url ->
  lib_request host (lib_of url) (request_options this url method) = inr evs ->
  outcome (call host op this params) = promise (deliver host evs pending) /\
  forall c, In c (calls (deliver host evs pending)) ->
            In c (log (call host op this params)).
Proof.
  intros Hb Hurl Hreq.
  destruct (_request_outcome host this method path data url evs Hurl Hreq) as [Ho Hl].
  rewrite call_async. unfold async.
  destruct (body_of op params) as [[e | [m p d]] l]; simpl in Hb; [discriminate Hb |].
  injection Hb as -> -> ->. simpl. split; [exact Ho |].
  intros c Hc. apply in_or_app. right. now apply Hl.
Qed.

Lemma responds_outcome (host : Host) (op : operation) (this : client)
  (params : value) (statusCode : Z) (text : string) :
  responds host op this params statusCode text ->
  outcome (call host op this params) = Some (on_end host statusCode text).
Proof.
  intros (method & path & data & url & chunks & rest & Hb & Hurl & Hreq & ->).
  destruct (call_outcome host op this params method path data url _ Hb Hurl Hreq)
    as [-> _].
  apply deliver_response.
Qed.

(** ** The ['end'] listener *)

Lemma on_end_invalid (host : Host) (statusCode : Z) (text : string) (e : exn) :
  JSON_parse host text = inl e ->
  on_end host statusCode text
    = Rejected (OhmyfinError "Invalid JSON response" statusCode VUndefined).
Proof.
  intros Hp. unfold on_end, lift. rewrite Hp. reflexivity.
Qed.

Lemma on_end_success (host : Host) (statusCode : Z) (text : string) (json : value) :
  JSON_parse host text = inr json ->
  (statusCode < 400)%Z ->
  on_end host statusCode text = Resolved json.
Proof.
  intros Hp Hst. unfold on_end, lift. rewrite Hp. simpl.
  destruct (Z.leb_spec 400 statusCode) as [Hge | _]; [lia | reflexivity].
Qed.

Lemma new_OhmyfinError_truthy (host : Host) (v : value) (statusCode : Z)
  (errors : value) :
  truthy v = true ->
  new_OhmyfinError host v statusCode errors =
    match ToString host v with
    | inl e => inl e
    | inr s => inr (OhmyfinError s statusCode errors)
    end.
Proof.
  destruct v; simpl; intros H; try discriminate H; reflexivity.
Qed.

Lemma on_end_api_error (host : Host) (statusCode : Z) (text : string)
  (json : value) (s : string) :
  JSON_parse host text = inr json ->
  (400 <= statusCode)%Z ->
  nullish json = false ->
  ToString host (js_or (field json "message") (VStr "API request failed")) = inr s ->
  on_end host statusCode text
    = Rejected (OhmyfinError s statusCode (field json "errors")).
Proof.
  intros Hp Hst Hn Hs. unfold on_end, lift. rewrite Hp. simpl.
  destruct (Z.leb_spec 400 statusCode) as [_ | Hlt]; [| lia].
  rewrite !(get_prop_field json _ Hn). simpl.
  rewrite new_OhmyfinError_truthy by (apply truthy_js_or; reflexivity).
  rewrite Hs. reflexivity.
Qed.

(** ** Classification of responses *)

Lemma double_responds (op : operation) (statusCode : Z) (text : string)
  (rest : list event) :
  responds (double (EvResponse statusCode :: EvData text :: EvEnd :: rest))
    op a_client (params_of op) statusCode text.
Proof.
  exists "POST", (path_of op), (params_of op), (default_url (path_of op)),
    [text], rest.
  destruct op; repeat split; reflexivity.
Qed.

(** C1, as stated, fails twice.  A response [400] whose body is an object
    with the empty string as [message] has a [message] field, and the
    error carries the fixed text instead of it; a response [400] with the
    body [null] parses, and the error is the one of a body that does not
    parse. *)
Lemma falsy_message_and_null_payload :
  (responds (answers_400 doc_empty_message) Track a_client a_track 400 doc_empty_message /\
   JSON_parse (answers_400 doc_empty_message) doc_empty_message
     = inr (VObj [("message", VStr "")]) /\
   outcome (call (answers_400 doc_empty_message) Track a_client a_track)
     = Some (Rejected (OhmyfinError "API request failed" 400 VUndefined)) /\
   ~ api_error_as_specified (VObj [("message", VStr "")]) 400
       (outcome (call (answers_400 doc_empty_message) Track a_client a_track))) /\
  (responds (answers_400 "null") Track a_client a_track 400 "null" /\
   JSON_parse (answers_400 "null") "null" = inr VNull /\
   outcome (call (answers_400 "null") Track a_client a_track)
     = Some (Rejected (OhmyfinError "Invalid JSON response" 400 VUndefined)) /\
   ~ api_error_as_specified VNull 400
       (outcome (call (answers_400 "null") Track a_client a_track))).
Proof.
  split; (split; [apply (double_responds Track) |]);
    (split; [reflexivity |]); (split; [reflexivity |]).
  - intros (message & errors & Ho & Hpresent & _).
    vm_compute in Ho. injection Ho as <- <-.
    assert (H : VStr "API request failed" = field (VObj [("message", VStr "")]) "message").
    { apply Hpresent. vm_compute. intros H; discriminate H. }
    vm_compute in H. discriminate H.
  - intros (message & errors & Ho & _ & Habsent & _).
    vm_compute in Ho. injection Ho as <- <-.
    specialize (Habsent eq_refl). discriminate Habsent.
Qed.

(** C1, amended. For every operation, when the transport returns a
    response of status 400 or more whose body parses to a JSON value other
    than [null], and the payload's [message] is absent, falsy, a string, or
    another value that converts to a string, the call is rejected with an
    [OhmyfinError] whose [statusCode] is the status of the response and
    whose [errors] is the payload's [errors] field ([undefined] when it
    has none).  Its message is ["API request failed"] when the payload's
    [message] is absent or falsy (the empty string, for one), the
    payload's [message] when that is a non-empty string, and the
    conversion of the payload's [message] when that is a truthy value of
    another type.  A truthy [message] that does not convert to a string
    is outside this statement. *)
Theorem api_error_from_payload (host : Host) (op : operation) (this : client)
  (params : value) (statusCode : Z) (text : string) (json : value) :
  responds host op this params statusCode text ->
  JSON_parse host text = inr json ->
  (400 <= statusCode)%Z ->
  nullish json = false ->
  (truthy (field json "message") = false ->
   outcome (call host op this params)
     = Some (Rejected (OhmyfinError "API request failed" statusCode (field json "errors")))) /\
  (forall s, field json "message" = VStr s -> s <> "" ->
   outcome (call host op this params)
     = Some (Rejected (OhmyfinError s statusCode (field json "errors")))) /\
  (forall s, truthy (field json "message") = true ->
   ToString host (field json "message") = inr s ->
   outcome (call host op this params)
     = Some (Rejected (OhmyfinError s statusCode (field json "errors")))).
Proof.
  intros Hr Hp Hst Hn.
  rewrite (responds_outcome host op this params statusCode text Hr).
  repeat split.
  - intros Hm. f_equal.
    apply (on_end_api_error host statusCode text json _ Hp Hst Hn).
    unfold js_or. rewrite Hm. reflexivity.
  - intros s Hm Hs. f_equal.
    apply (on_end_api_error host statusCode text json _ Hp Hst Hn).
    unfold js_or. rewrite Hm. simpl.
    destruct (String.eqb_spec s "") as [-> | _]; [contradiction | reflexivity].
  - intros s Hm Hs. f_equal.
    apply (on_end_api_error host statusCode text json _ Hp Hst Hn).
    unfold js_or. rewrite Hm. exact Hs.
Qed.

(** A witness of C1 (amended): [404] with the message [not found], and
    [400] with an empty object. *)
Lemma api_error_from_payload_witness :
  outcome (call (double [EvResponse 404; EvData doc_not_found; EvEnd]) GetSSI a_client
             (params_of GetSSI))
    = Some (Rejected (OhmyfinError "not found" 404 VUndefined)) /\
  outcome (call (answers_400 "{}") Validate a_client (params_of Validate))
    = Some (Rejected (OhmyfinError "API request failed" 400 VUndefined)).
Proof.
  split.
  - apply (api_error_from_payload
             (double [EvResponse 404; EvData doc_not_found; EvEnd]) GetSSI a_client
             (params_of GetSSI) 404 doc_not_found (VObj [("message", VStr "not found")]));
      [apply (double_responds GetSSI) | reflexivity | lia | reflexivity
      | reflexivity | reflexivity].
  - destruct (api_error_from_payload (answers_400 "{}") Validate a_client
                (params_of Validate) 400 "{}" (VObj [])) as [Hdefault _];
      [apply (double_responds Validate) | reflexivity | lia | reflexivity |].
    apply Hdefault. reflexivity.
Defined.

(** C3. For every operation, when the transport returns a response of
    status below 400 whose body parses as JSON, the call resolves with the
    parsed value itself, whatever its shape. *)
Theorem success_resolves_with_parsed_value (host : Host) (op : operation)
  (this : client) (params : value) (statusCode : Z) (text : string) (json : value) :
  responds host op this params statusCode text ->
  JSON_parse host text = inr json ->
  (statusCode < 400)%Z ->
  outcome (call host op this params) = Some (Resolved json).
Proof.
  intros Hr Hp Hst.
  rewrite (responds_outcome host op this params statusCode text Hr).
  f_equal. exact (on_end_success host statusCode text json Hp Hst).
Qed.

(** A witness of C3: a payload of none of the documented shapes, [null]
    with status 200, is what [change] resolves with. *)
Lemma success_resolves_with_parsed_value_witness :
  outcome (call (double [EvResponse 200; EvData "null"; EvEnd]) Change a_client
             (params_of Change))
    = Some (Resolved VNull).
Proof.
  apply (success_resolves_with_parsed_value
           (double [EvResponse 200; EvData "null"; EvEnd]) Change a_client
           (params_of Change) 200 "null" VNull);
    [apply (double_responds Change) | reflexivity | lia].
Defined.

(** C4. For every operation, when the transport returns a response whose
    body does not parse as JSON, the call is rejected with an
    [OhmyfinError] whose message is ["Invalid JSON response"] and whose
    [statusCode] is the status of the response, whatever that status is. *)
Theorem invalid_json_rejects_with_status (host : Host) (op : operation)
  (this : client) (params : value) (statusCode : Z) (text : string) (e : exn) :
  responds host op this params statusCode text ->
  JSON_parse host text = inl e ->
  outcome (call host op this params)
    = Some (Rejected (OhmyfinError "Invalid JSON response" statusCode VUndefined)).
Proof.
  intros Hr Hp.
  rewrite (responds_outcome host op this params statusCode text Hr).
  f_equal. exact (on_end_invalid host statusCode text e Hp).
Qed.

(** A witness of C4: status 200 with a body that is not JSON. *)
Lemma invalid_json_rejects_with_status_witness :
  outcome (call (double [EvResponse 200; EvData "<html>"; EvEnd]) Track a_client a_track)
    = Some (Rejected (OhmyfinError "Invalid JSON response" 200 VUndefined)).
Proof.
  apply (invalid_json_rejects_with_status
           (double [EvResponse 200; EvData "<html>"; EvEnd]) Track a_client a_track
           200 "<html>" (SyntaxError "Unexpected token"));
    [apply (double_responds Track) | reflexivity].
Defined.

(** ** Timeout *)


(** * Further properties of the client *)

(** ** How a call runs *)

(** The body of an operation throws, or returns the request
    [POST path_of op] with the argument, which is then an object. *)
Lemma body_of_cases (op : operation) (params : value) :
  (exists e, body_of op params = throw e) \/
  (exists props,
     params = VObj props /\
     body_of op params = ret (Call_request "POST" (path_of op) params)).
Proof.
  destruct (nullish params) eqn:Hn.
  - left. destruct params; try discriminate Hn; destruct op; eexists; reflexivity.
  - destruct op; simpl body_of;
      rewrite ?(track_body_eq params Hn), ?(change_body_eq params Hn),
        ?(validate_body_eq params Hn), ?(getSSI_body_eq params Hn).
    + destruct (has params "uetr"), (has params "ref"), (has params "amount"),
        (has params "date"), (has params "currency") eqn:Hc; simpl;
        try (left; eexists; reflexivity);
        right; destruct (has_object params _ Hc) as [props ->];
        exists props; split; reflexivity.
    + destruct (has params "uetr"), (has params "ref"), (has params "status"),
        (has params "role") eqn:Hc; simpl;
        try (left; eexists; reflexivity);
        right; destruct (has_object params _ Hc) as [props ->];
        exists props; split; reflexivity.
    + destruct (has params "beneficiary_bic"), (has params "currency") eqn:Hc; simpl;
        try (left; eexists; reflexivity);
        right; destruct (has_object params _ Hc) as [props ->];
        exists props; split; reflexivity.
    + destruct (has params "swift"), (has params "currency") eqn:Hc; simpl;
        try (left; eexists; reflexivity);
        right; destruct (has_object params _ Hc) as [props ->];
        exists props; split; reflexivity.
Qed.

Lemma _request_bad_url (host : Host) (this : client) (method path : string)
  (data : value) (e : exn) :
  new_URL host path (baseUrl this) = inl e ->
  _request host this method path data
    = {| outcome := Some (Rejected e); log := [] |}.
Proof.
  intros Hurl. unfold _request, executor, lift. rewrite Hurl. reflexivity.
Qed.

Lemma _request_refused (host : Host) (this : client) (method path : string)
  (data : value) (url : URL.t) (e : exn) :
  new_URL host path (baseUrl this) = inr url ->
  lib_request host (lib_of url) (request_options this url method) = inl e ->
  _request host this method path data
    = {| outcome := Some (Rejected e); log := [] |}.
Proof.
  intros Hurl Hreq. unfold _request, executor, lift, request.
  rewrite Hurl. unfold lib_of in Hreq. simpl. rewrite Hreq. reflexivity.
Qed.

(** The listeners call the request only to destroy it, once for each
    ['timeout']. *)
Lemma calls_deliver (host : Host) (evs : list event) :
  forall s,
    calls (deliver host evs s) = (calls s ++ repeat IoDestroy (timeouts evs))%list.
Proof.
  induction evs as [| ev evs IH]; intros s.
  - simpl. now rewrite app_nil_r.
  - change (deliver host (ev :: evs) s) with (deliver host evs (step host s ev)).
    rewrite IH. unfold timeouts.
    destruct ev; simpl; try destruct (res s); simpl; trivial;
      now rewrite <- app_assoc.
Qed.

Lemma call_course (host : Host) (op : operation) (this : client) (params : value) :
  course host op this params.
Proof.
  destruct (body_of_cases op params) as [[e Hb] | [props [-> Hb]]].
  - apply (Stopped_by_check host op this params e Hb).
    rewrite call_async. now apply async_throw.
  - assert (Hc : call host op this (VObj props)
                 = _request host this "POST" (path_of op) (VObj props)).
    { rewrite call_async. now apply async_request. }
    destruct (new_URL host (path_of op) (baseUrl this)) as [e | url] eqn:Hurl.
    + apply (Stopped_by_address host op this (VObj props) e Hb Hurl).
      rewrite Hc. now apply _request_bad_url.
    + destruct (lib_request host (lib_of url) (request_options this url "POST"))
        as [e | evs] eqn:Hreq.
      * apply (Stopped_by_transport host op this (VObj props) url e Hb Hurl Hreq).
        rewrite Hc. now apply (_request_refused host this "POST" _ _ url).
      * apply (Dispatched host op this (VObj props) url evs Hb Hurl Hreq).
        rewrite Hc, (_request_dispatches host this "POST" _ props url evs Hurl Hreq).
        rewrite calls_deliver. reflexivity.
Qed.

(** ** The request that goes out *)

Lemma logged_request (host : Host) (op : operation) (this : client) (params : value)
  (lib : library) (o : Options.t) :
  In (IoRequest lib o) (log (call host op this params)) ->
  exists url,
    new_URL host (path_of op) (baseUrl this) = inr url /\
    lib = lib_of url /\
    o = request_options this url "POST".
Proof.
  destruct (call_course host op this params); rewrite Hrun; simpl;
    intros H; try contradiction.
  destruct H as [H | [H | [H | H]]]; try discriminate H.
  - injection H as <- <-. exists url. auto.
  - apply repeat_spec in H. discriminate H.
Qed.

(** X1. Whatever the operation and its outcome, a request created on the
    transport is a [POST] to the fixed path of the operation resolved
    against the client's base address, carries the client's credential in
    the [KEY] header beside the three fixed headers, and has the client's
    timeout. *)
Theorem every_request_is_a_keyed_post (host : Host) (op : operation) (this : client)
  (params : value) (lib : library) (o : Options.t) :
  In (IoRequest lib o) (log (call host op this params)) ->
  Options.method o = "POST" /\
  Options.headers o = headers_of this /\
  Options.timeout o = timeout this /\
  exists url,
    new_URL host (path_of op) (baseUrl this) = inr url /\
    Options.hostname o = URL.hostname url /\
    Options.path o = URL.pathname url ++ URL.search url.
Proof.
  intros H. destruct (logged_request host op this params lib o H)
    as (url & Hurl & _ & ->).
  repeat split. exists url. repeat split. exact Hurl.
Qed.

Lemma every_request_is_a_keyed_post_witness :
  Options.method (request_options a_client (default_url "/api/getssi") "POST") = "POST" /\
  Options.headers (request_options a_client (default_url "/api/getssi") "POST")
    = headers_of a_client /\
  Options.timeout (request_options a_client (default_url "/api/getssi") "POST")
    = timeout a_client /\
  exists url,
    new_URL (double []) (path_of GetSSI) (baseUrl a_client) = inr url /\
    Options.hostname (request_options a_client (default_url "/api/getssi") "POST")
      = URL.hostname url /\
    Options.path (request_options a_client (default_url "/api/getssi") "POST")
      = URL.pathname url ++ URL.search url.
Proof.
  apply (every_request_is_a_keyed_post (double []) GetSSI a_client (params_of GetSSI)
           https (request_options a_client (default_url "/api/getssi") "POST")).
  simpl. left. reflexivity.
Defined.

(** X2. The scheme of the resolved address selects the transport and the
    default port: the request goes to [https] exactly when the protocol is
    ["https:"] and to [http] for every other protocol; an explicit port of
    the address is used as it is, and without one the port is 443 on
    [https] and 80 on [http]. *)
Theorem scheme_selects_transport_and_port (host : Host) (op : operation)
  (this : client) (params : value) (lib : library) (o : Options.t) :
  In (IoRequest lib o) (log (call host op this params)) ->
  exists url,
    new_URL host (path_of op) (baseUrl this) = inr url /\
    (lib = https <-> URL.protocol url = "https:") /\
    (lib = http <-> URL.protocol url <> "https:") /\
    (URL.port url <> "" -> Options.port o = VStr (URL.port url)) /\
    (URL.port url = "" -> lib = https -> Options.port o = VNum 443%float) /\
    (URL.port url = "" -> lib = http -> Options.port o = VNum 80%float).
Proof.
  intros H. destruct (logged_request host op this params lib o H)
    as (url & Hurl & -> & ->).
  exists url. split; [exact Hurl |].
  unfold lib_of, request_options, js_or. simpl.
  destruct (String.eqb_spec (URL.protocol url) "https:") as [Hp | Hp];
    destruct (String.eqb_spec (URL.port url) "") as [Hq | Hq]; simpl;
    repeat split; intros; try congruence; try discriminate; try contradiction.
Qed.

Lemma scheme_selects_transport_and_port_witness :
  exists url,
    new_URL (local_double []) (path_of Track) (baseUrl a_local_client) = inr url /\
    (http = https <-> URL.protocol url = "https:") /\
    (http = http <-> URL.protocol url <> "https:") /\
    (URL.port url <> "" ->
     Options.port (request_options a_local_client (local_url "/api/track") "POST")
       = VStr (URL.port url)) /\
    (URL.port url = "" -> http = https ->
     Options.port (request_options a_local_client (local_url "/api/track") "POST")
       = VNum 443%float) /\
    (URL.port url = "" -> http = http ->
     Options.port (request_options a_local_client (local_url "/api/track") "POST")
       = VNum 80%float).
Proof.
  apply (scheme_selects_transport_and_port (local_double []) Track a_local_client
           a_track http (request_options a_local_client (local_url "/api/track") "POST")).
  simpl. left. reflexivity.
Defined.

(** X3. A call talks to the transport at most once and in one way: its log
    is empty, or it is the creation of one request, one write, whose text
    is the serialisation of the very value the caller passed (the
    operation hands its argument to [JSON.stringify] as it is, without
    building another object), and the end of the request, followed by
    nothing but destructions of that request.  No operation issues a
    second request. *)
Theorem one_request_with_the_argument (host : Host) (op : operation) (this : client)
  (params : value) :
  (log (call host op this params) = [] \/
   exists lib o n,
     log (call host op this params)
       = IoRequest lib o :: IoWrite params :: IoEnd :: repeat IoDestroy n) /\
  length (filter is_request (log (call host op this params))) <= 1 /\
  (forall d, In (IoWrite d) (log (call host op this params)) -> d = params).
Proof.
  assert (Hnone : forall n, filter is_request (repeat IoDestroy n) = []).
  { induction n; simpl; auto. }
  destruct (call_course host op this params); rewrite Hrun; simpl;
    try (split; [left; reflexivity | split; [lia | intros d []]]).
  split; [right; eauto | split].
  - rewrite Hnone. simpl. lia.
  - intros d [H | [H | [H | H]]]; try discriminate H.
    + now injection H.
    + apply repeat_spec in H. discriminate H.
Qed.

(** ** Failures before and after the request goes out *)

Lemma passes_is_not_stopped (op : operation) (params : value) (e : exn) :
  passes_checks op params -> body_of op params = throw e -> False.
Proof.
  unfold passes_checks. intros -> H. discriminate H.
Qed.

(** The course of a call that passes its checks, when the address resolves
    and the transport accepts the request. *)
Lemma dispatched_run (host : Host) (op : operation) (this : client) (params : value)
  (url : URL.t) (evs : list event) :
  passes_checks op params ->
  new_URL host (path_of op) (baseUrl this) = inr url ->
  lib_request host (lib_of url) (request_options this url "POST") = inr evs ->
  call host op this params =
    {| outcome := promise (deliver host evs pending);
       log := IoRequest (lib_of url) (request_options this url "POST")
                :: IoWrite params :: IoEnd :: repeat IoDestroy (timeouts evs) |}.
Proof.
  intros Hp Hu Hr.
  destruct (call_course host op this params).
  - destruct (passes_is_not_stopped op params e Hp Hbody).
  - rewrite Hurl in Hu. discriminate Hu.
  - rewrite Hurl in Hu. injection Hu as ->. rewrite Hreq in Hr. discriminate Hr.
  - rewrite Hurl in Hu. injection Hu as ->. rewrite Hreq in Hr. injection Hr as ->.
    exact Hrun.
Qed.

(** X4. An address that does not resolve stops a call that passed its
    checks before anything reaches the transport: the call is rejected
    with the very exception that [new URL] threw. *)
Theorem unresolved_address_rejects (host : Host) (op : operation) (this : client)
  (params : value) (e : exn) :
  passes_checks op params ->
  new_URL host (path_of op) (baseUrl this) = inl e ->
  call host op this params = {| outcome := Some (Rejected e); log := [] |}.
Proof.
  intros Hp Hu.
  destruct (call_course host op this params).
  - destruct (passes_is_not_stopped op params e0 Hp Hbody).
  - rewrite Hurl in Hu. injection Hu as ->. exact Hrun.
  - rewrite Hurl in Hu. discriminate Hu.
  - rewrite Hurl in Hu. discriminate Hu.
Qed.

Lemma unresolved_address_rejects_witness :
  call (double []) Track a_lost_client a_track
    = {| outcome := Some (Rejected (TypeError "Invalid URL")); log := [] |}.
Proof.
  apply (unresolved_address_rejects (double []) Track a_lost_client a_track
           (TypeError "Invalid URL")); reflexivity.
Defined.

(** X5. When the creation of the request throws, the call is rejected
    with that exception; nothing is written and no request is ended. *)
Theorem refused_request_rejects (host : Host) (op : operation) (this : client)
  (params : value) (url : URL.t) (e : exn) :
  passes_checks op params ->
  new_URL host (path_of op) (baseUrl this) = inr url ->
  lib_request host (lib_of url) (request_options this url "POST") = inl e ->
  call host op this params = {| outcome := Some (Rejected e); log := [] |}.
Proof.
  intros Hp Hu Hr.
  destruct (call_course host op this params).
  - destruct (passes_is_not_stopped op params e0 Hp Hbody).
  - rewrite Hurl in Hu. discriminate Hu.
  - rewrite Hurl in Hu. injection Hu as ->. rewrite Hreq in Hr. injection Hr as ->.
    exact Hrun.
  - rewrite Hurl in Hu. injection Hu as ->. rewrite Hreq in Hr. discriminate Hr.
Qed.

Lemma refused_request_rejects_witness :
  call refusing Validate a_client (params_of Validate)
    = {| outcome := Some (Rejected (TypeError "Invalid character in header content"));
         log := [] |}.
Proof.
  apply (refused_request_rejects refusing Validate a_client (params_of Validate)
           (default_url "/api/validate") (TypeError "Invalid character in header content"));
    reflexivity.
Defined.

Lemma deliver_error (host : Host) (before rest : list event) (code : string) :
  forallb quiet before = true ->
  promise (deliver host (before ++ EvError code :: rest) pending)
    = Some (Rejected (TransportError code)).
Proof.
  intros Hq.
  change (EvError code :: rest) with ([EvError code] ++ rest)%list.
  rewrite !deliver_app.
  apply settled_stays. simpl.
  rewrite (quiet_keeps_pending host before pending Hq eq_refl). reflexivity.
Qed.

(** X6. A transport error that comes before the response has ended and
    before any timeout rejects the call with the transport's own error,
    which is not an [OhmyfinError], whatever part of a response had
    arrived and whatever comes later. *)
Theorem transport_error_is_passed_on (host : Host) (op : operation) (this : client)
  (params : value) (url : URL.t) (before rest : list event) (code : string) :
  passes_checks op params ->
  new_URL host (path_of op) (baseUrl this) = inr url ->
  lib_request host (lib_of url) (request_options this url "POST")
    = inr (before ++ EvError code :: rest)%list ->
  forallb quiet before = true ->
  outcome (call host op this params) = Some (Rejected (TransportError code)) /\
  is_OhmyfinError (TransportError code) = false.
Proof.
  intros Hp Hu Hr Hq.
  rewrite (dispatched_run host op this params url _ Hp Hu Hr). simpl.
  split; [now apply deliver_error | reflexivity].
Qed.

Lemma transport_error_is_passed_on_witness :
  outcome (call (double [EvResponse 200; EvData "{"; EvError "ECONNRESET"; EvEnd])
             Track a_client a_track)
    = Some (Rejected (TransportError "ECONNRESET")) /\
  is_OhmyfinError (TransportError "ECONNRESET") = false.
Proof.
  apply (transport_error_is_passed_on
           (double [EvResponse 200; EvData "{"; EvError "ECONNRESET"; EvEnd])
           Track a_client a_track (default_url "/api/track")
           [EvResponse 200; EvData "{"] [EvEnd] "ECONNRESET"); reflexivity.
Defined.

Lemma timeouts_positive (evs : list event) :
  In EvTimeout evs <-> 0 < timeouts evs.
Proof.
  unfold timeouts. induction evs as [| ev evs IH]; simpl.
  - split; [intros [] | lia].
  - destruct ev; simpl; rewrite <- ?IH; split; intros H;
      first [ lia
            | left; reflexivity
            | right; exact H
            | destruct H as [H0 | H0]; [discriminate H0 | exact H0] ].
Qed.

(** X7. The request is destroyed for a timeout and for nothing else: a
    destruction in the log of a call means that the transport signalled
    ['timeout'] on its request, and every call that went out and whose
    transport signals ['timeout'] destroys its request, even when the
    promise had settled before. *)
Theorem destroyed_exactly_on_timeout (host : Host) (op : operation) (this : client)
  (params : value) :
  (In IoDestroy (log (call host op this params)) ->
   exists url evs,
     new_URL host (path_of op) (baseUrl this) = inr url /\
     lib_request host (lib_of url) (request_options this url "POST") = inr evs /\
     In EvTimeout evs) /\
  (forall url evs,
     passes_checks op params ->
     new_URL host (path_of op) (baseUrl this) = inr url ->
     lib_request host (lib_of url) (request_options this url "POST") = inr evs ->
     In EvTimeout evs ->
     In IoDestroy (log (call host op this params))).
Proof.
  split.
  - destruct (call_course host op this params); rewrite Hrun; simpl;
      intros H; try contradiction.
    destruct H as [H | [H | [H | H]]]; try discriminate H.
    exists url, evs. repeat split; trivial.
    apply timeouts_positive. destruct (timeouts evs); [destruct H | lia].
  - intros url evs Hp Hu Hr Ht.
    rewrite (dispatched_run host op this params url evs Hp Hu Hr). simpl.
    right; right; right.
    apply timeouts_positive in Ht. destruct (timeouts evs); [lia | now left].
Qed.

Lemma destroyed_exactly_on_timeout_witness :
  In IoDestroy
    (log (call (double [EvResponse 200; EvData "[]"; EvEnd; EvTimeout]) Track a_client
            a_track)).
Proof.
  apply (proj2 (destroyed_exactly_on_timeout
                  (double [EvResponse 200; EvData "[]"; EvEnd; EvTimeout]) Track
                  a_client a_track)
           (default_url "/api/track") [EvResponse 200; EvData "[]"; EvEnd; EvTimeout]);
    try reflexivity.
  simpl. auto.
Defined.

(** X8. The client has no timer of its own: while the transport delivers
    only the response and chunks of its body, the promise of the call stays
    pending and the request is left alone. *)
Theorem pending_until_the_transport_decides (host : Host) (op : operation)
  (this : client) (params : value) (url : URL.t) (evs : list event) :
  passes_checks op params ->
  new_URL host (path_of op) (baseUrl this) = inr url ->
  lib_request host (lib_of url) (request_options this url "POST") = inr evs ->
  forallb quiet evs = true ->
  call host op this params =
    {| outcome := None;
       log := [ IoRequest (lib_of url) (request_options this url "POST");
                IoWrite params; IoEnd ] |}.
Proof.
  intros Hp Hu Hr Hq.
  rewrite (dispatched_run host op this params url evs Hp Hu Hr).
  rewrite (quiet_keeps_pending host evs pending Hq eq_refl).
  assert (Hz : timeouts evs = 0).
  { destruct (timeouts evs) eqn:Hn; [reflexivity | exfalso].
    assert (Hin : In EvTimeout evs) by (apply timeouts_positive; lia).
    rewrite forallb_forall in Hq. specialize (Hq EvTimeout Hin). discriminate Hq. }
  rewrite Hz. reflexivity.
Qed.

Lemma pending_until_the_transport_decides_witness :
  call (double [EvResponse 200; EvData "{}"]) GetSSI a_client (params_of GetSSI)
    = {| outcome := None;
         log := [ IoRequest https (request_options a_client (default_url "/api/getssi") "POST");
                  IoWrite (params_of GetSSI); IoEnd ] |}.
Proof.
  apply (pending_until_the_transport_decides (double [EvResponse 200; EvData "{}"])
           GetSSI a_client (params_of GetSSI) (default_url "/api/getssi")
           [EvResponse 200; EvData "{}"]); reflexivity.
Defined.

(** X9. The first settlement is final: once the events delivered so far
    have settled the promise of a call, by a response that ended, an error
    or a timeout, no later event changes what the caller gets. *)
Theorem first_settlement_is_final (host : Host) (op : operation) (this : client)
  (params : value) (url : URL.t) (sofar later : list event) (x : settlement) :
  passes_checks op params ->
  new_URL host (path_of op) (baseUrl this) = inr url ->
  lib_request host (lib_of url) (request_options this url "POST")
    = inr (sofar ++ later)%list ->
  promise (deliver host sofar pending) = Some x ->
  outcome (call host op this params) = Some x.
Proof.
  intros Hp Hu Hr Hs.
  rewrite (dispatched_run host op this params url _ Hp Hu Hr). simpl.
  rewrite deliver_app. now apply settled_stays.
Qed.

Lemma first_settlement_is_final_witness :
  outcome (call (double [EvResponse 200; EvData "[]"; EvEnd; EvTimeout; EvError "ECONNRESET"])
             Change a_client (params_of Change))
    = Some (Resolved (VArr [])).
Proof.
  apply (first_settlement_is_final
           (double [EvResponse 200; EvData "[]"; EvEnd; EvTimeout; EvError "ECONNRESET"])
           Change a_client (params_of Change) (default_url "/api/change")
           [EvResponse 200; EvData "[]"; EvEnd] [EvTimeout; EvError "ECONNRESET"]);
    reflexivity.
Defined.

(** ** What a completed response can give *)

Lemma new_OhmyfinError_class (host : Host) (v : value) (statusCode : Z)
  (errors : value) (x : exn) :
  new_OhmyfinError host v statusCode errors = inr x ->
  exists s, x = OhmyfinError s statusCode errors.
Proof.
  unfold new_OhmyfinError.
  destruct v; try (intros H; injection H as <-; eexists; reflexivity);
    match goal with
    | |- context [ToString host ?a] => destruct (ToString host a)
    end;
    intros H; try discriminate H; injection H as <-; eexists; reflexivity.
Qed.

Lemma on_end_cases (host : Host) (statusCode : Z) (text : string) :
  (exists json,
     JSON_parse host text = inr json /\ (statusCode < 400)%Z /\
     on_end host statusCode text = Resolved json) \/
  (exists message errors,
     on_end host statusCode text = Rejected (OhmyfinError message statusCode errors)).
Proof.
  unfold on_end, lift.
  destruct (JSON_parse host text) as [e | json]; simpl; [right; eauto |].
  destruct (Z.leb_spec 400 statusCode) as [Hge | Hlt]; [| left; eauto].
  right.
  destruct (get_prop json "message") as [e | m]; simpl; [eauto |].
  destruct (get_prop json "errors") as [e | errs]; simpl; [eauto |].
  destruct (new_OhmyfinError host (js_or m (VStr "API request failed")) statusCode errs)
    as [e | x] eqn:Hx; simpl; [eauto |].
  destruct (new_OhmyfinError_class host _ _ _ x Hx) as [s ->]. eauto.
Qed.

(** X10. A response that arrives whole never leaks an exception of the
    runtime: the call either resolves with the parsed body, which happens
    only for a status below 400, or is rejected with an [OhmyfinError]
    that carries the status of the response. *)
Theorem completed_response_resolves_or_reports_status (host : Host) (op : operation)
  (this : client) (params : value) (statusCode : Z) (text : string) :
  responds host op this params statusCode text ->
  (exists json,
     JSON_parse host text = inr json /\ (statusCode < 400)%Z /\
     outcome (call host op this params) = Some (Resolved json)) \/
  (exists message errors,
     outcome (call host op this params)
       = Some (Rejected (OhmyfinError message statusCode errors))).
Proof.
  intros Hr. rewrite (responds_outcome host op this params statusCode text Hr).
  destruct (on_end_cases host statusCode text)
    as [(json & Hp & Hst & ->) | (message & errors & ->)]; eauto 6.
Qed.

Lemma completed_response_resolves_or_reports_status_witness :
  (exists json,
     JSON_parse (double [EvResponse 500; EvData "[]"; EvEnd]) "[]" = inr json /\
     (500 < 400)%Z /\
     outcome (call (double [EvResponse 500; EvData "[]"; EvEnd]) Track a_client a_track)
       = Some (Resolved json)) \/
  (exists message errors,
     outcome (call (double [EvResponse 500; EvData "[]"; EvEnd]) Track a_client a_track)
       = Some (Rejected (OhmyfinError message 500 errors))).
Proof.
  apply (completed_response_resolves_or_reports_status
           (double [EvResponse 500; EvData "[]"; EvEnd]) Track a_client a_track 500 "[]").
  apply (double_responds Track).
Defined.

(** X11. An error response whose body is the JSON text [null] is reported
    as a body that does not parse: reading [message] of [null] throws
    inside the [try], so for a status of 400 or more the call is rejected
    with ["Invalid JSON response"] and the status. *)
Theorem null_error_body_reads_as_invalid (host : Host) (op : operation)
  (this : client) (params : value) (statusCode : Z) (text : string) (json : value) :
  responds host op this params statusCode text ->
  JSON_parse host text = inr json ->
  nullish json = true ->
  (400 <= statusCode)%Z ->
  outcome (call host op this params)
    = Some (Rejected (OhmyfinError "Invalid JSON response" statusCode VUndefined)).
Proof.
  intros Hr Hp Hn Hst.
  rewrite (responds_outcome host op this params statusCode text Hr).
  unfold on_end, lift. rewrite Hp. simpl.
  destruct (Z.leb_spec 400 statusCode) as [_ | Hlt]; [| lia].
  destruct json; try discriminate Hn; reflexivity.
Qed.

Lemma null_error_body_reads_as_invalid_witness :
  outcome (call (double [EvResponse 503; EvData "null"; EvEnd]) GetSSI a_client
             (params_of GetSSI))
    = Some (Rejected (OhmyfinError "Invalid JSON response" 503 VUndefined)).
Proof.
  apply (null_error_body_reads_as_invalid
           (double [EvResponse 503; EvData "null"; EvEnd]) GetSSI a_client
           (params_of GetSSI) 503 "null" VNull);
    [apply (double_responds GetSSI) | reflexivity | reflexivity | lia].
Defined.

(** ** Arguments and configurations of any kind *)

(** X12. A call without an argument, or with [null], fails in the
    operation's first field read: it is rejected with a [TypeError], not
    with the operation's own error, and nothing reaches the transport. *)
Theorem missing_argument_is_a_type_error (host : Host) (op : operation)
  (this : client) (params : value) :
  nullish params = true ->
  exists message,
    call host op this params
      = {| outcome := Some (Rejected (TypeError message)); log := [] |}.
Proof.
  intros Hn.
  destruct params; try discriminate Hn; destruct op; eexists; reflexivity.
Qed.

Lemma missing_argument_is_a_type_error_witness :
  exists message,
    call (double []) Validate a_client VUndefined
      = {| outcome := Some (Rejected (TypeError message)); log := [] |}.
Proof.
  apply (missing_argument_is_a_type_error (double []) Validate a_client VUndefined).
  reflexivity.
Defined.

(** X13. The checks of every operation are tests of truthiness: a call
    with an argument passes them if and only if each required field of its
    operation ([uetr] or [ref] for the identifier) holds a truthy value.
    A field that is present but holds the empty string, [0], [null],
    [false] or [NaN] is treated as if it were missing. *)
Theorem checks_pass_iff_required_fields_truthy (op : operation) (params : value) :
  nullish params = false ->
  (passes_checks op params <-> forallb (holds params) (required op) = true).
Proof.
  intros Hn. unfold passes_checks.
  destruct op; simpl;
    rewrite ?(track_body_eq params Hn), ?(change_body_eq params Hn),
      ?(validate_body_eq params Hn), ?(getSSI_body_eq params Hn);
    repeat match goal with
           | |- context [has params ?k] => destruct (has params k)
           end;
    simpl; split; intros H; try discriminate H; reflexivity.
Qed.

Lemma checks_pass_iff_required_fields_truthy_witness :
  passes_checks GetSSI (VObj [("swift", VStr "DEUTDEFF"); ("currency", VStr "")]) <->
  forallb (holds (VObj [("swift", VStr "DEUTDEFF"); ("currency", VStr "")]))
    (required GetSSI) = true.
Proof.
  apply (checks_pass_iff_required_fields_truthy GetSSI
           (VObj [("swift", VStr "DEUTDEFF"); ("currency", VStr "")])).
  reflexivity.
Defined.

(** X14. A call with an argument that fails the checks is rejected with
    one fixed message, and nothing reaches the transport.  [track] and
    [change] test the identifier first: when neither [uetr] nor [ref] is
    truthy the message is ["Either uetr or ref is required"] whatever the
    other fields hold; otherwise, and for [validate] and [getSSI], it is
    the operation's message about its other fields, the same whichever of
    them is missing. *)
Theorem failed_check_names_its_fields (host : Host) (op : operation) (this : client)
  (params : value) :
  nullish params = false ->
  forallb (holds params) (required op) = false ->
  call host op this params
    = {| outcome := Some (Rejected (Error (complaint op params))); log := [] |}.
Proof.
  intros Hn Hf. rewrite call_async. apply async_throw. revert Hf.
  unfold complaint.
  destruct op; simpl;
    rewrite ?(track_body_eq params Hn), ?(change_body_eq params Hn),
      ?(validate_body_eq params Hn), ?(getSSI_body_eq params Hn);
    repeat match goal with
           | |- context [has params ?k] => destruct (has params k)
           end;
    simpl; intros H; try discriminate H; reflexivity.
Qed.

Lemma failed_check_names_its_fields_witness :
  call (double []) Change a_client (VObj [("status", VStr "success")])
    = {| outcome := Some (Rejected (Error "Either uetr or ref is required")); log := [] |} /\
  call (double []) Change a_client (VObj [("ref", VStr "INV-1"); ("status", VStr "success")])
    = {| outcome := Some (Rejected (Error "status and role are required")); log := [] |}.
Proof.
  split.
  - apply (failed_check_names_its_fields (double []) Change a_client
             (VObj [("status", VStr "success")])); reflexivity.
  - apply (failed_check_names_its_fields (double []) Change a_client
             (VObj [("ref", VStr "INV-1"); ("status", VStr "success")])); reflexivity.
Defined.

(** X15. The constructor decides on the truthiness of [apiKey] alone, for
    a configuration of any kind: it throws nothing but the error about the
    API key, and throws it exactly when the configuration gives no truthy
    [apiKey], so also for no configuration at all, for a configuration
    that is not an object and for an [apiKey] that is [null], [0], [false]
    or [NaN]; a base address or a timeout of any type is never a reason to
    fail, and a truthy one is kept as it is. *)
Theorem constructor_throws_only_for_the_key (config : value) :
  (forall e, fst (Ohmyfin config) = inl e -> e = ConfigurationError) /\
  (fst (Ohmyfin config) = inl ConfigurationError <->
     truthy (credential config) = false) /\
  (forall this, fst (Ohmyfin config) = inr this ->
     apiKey this = credential config /\
     (truthy (field config "baseUrl") = true -> baseUrl this = field config "baseUrl") /\
     (truthy (field config "timeout") = true -> timeout this = field config "timeout")).
Proof.
  rewrite (Ohmyfin_eq config).
  destruct (truthy (credential config)); simpl.
  - split; [intros e H; discriminate H |].
    split; [split; intros H; discriminate H |].
    intros this H. injection H as <-. simpl. unfold js_or.
    split; [reflexivity |]. split; intros ->; reflexivity.
  - split; [intros e H; now injection H |].
    split; [split; reflexivity |].
    intros this H. discriminate H.
Qed.

Example constructor_edge_cases :
  Ohmyfin VUndefined = throw ConfigurationError /\
  Ohmyfin (VStr "secret") = throw ConfigurationError /\
  Ohmyfin (VObj [("apiKey", VNum 0%float); ("timeout", VNum 1000%float)])
    = throw ConfigurationError /\
  Ohmyfin (VObj [("apiKey", VStr "secret"); ("timeout", VStr "soon")])
    = ret {| apiKey := VStr "secret"; baseUrl := VStr "https://ohmyfin.ai";
             timeout := VStr "soon" |}.
Proof. repeat split. Qed.

(** ** [_request] without data *)

(** X16. [_request] sends a body only for truthy data: called without
    data, or with [null] or another falsy value, it creates the request
    and ends it without writing anything, and the listeners decide the
    promise as for any other request. *)
Theorem no_body_without_data (host : Host) (this : client) (method path : string)
  (data : value) (url : URL.t) (evs : list event) :
  truthy data = false ->
  new_URL host path (baseUrl this) = inr url ->
  lib_request host (lib_of url) (request_options this url method) = inr evs ->
  _request host this method path data =
    {| outcome := promise (deliver host evs pending);
       log := IoRequest (lib_of url) (request_options this url method)
                :: IoEnd :: repeat IoDestroy (timeouts evs) |}.
Proof.
  intros Hd Hurl Hreq. unfold _request.
  set (d := match data with VUndefined => VNull | _ => data end).
  assert (Hf : truthy d = false) by (destruct data; exact Hd || reflexivity).
  clearbody d.
  unfold executor, lift, request.
  rewrite Hurl. unfold lib_of in Hreq. simpl. rewrite Hreq, Hf. simpl.
  rewrite calls_deliver. reflexivity.
Qed.

Lemma no_body_without_data_witness :
  _request (double [EvResponse 200; EvData "{}"; EvEnd]) a_client "GET" "/api/ping"
    VUndefined
  = {| outcome := Some (Resolved (VObj []));
       log := [ IoRequest https (request_options a_client (default_url "/api/ping") "GET");
                IoEnd ] |}.
Proof.
  apply (no_body_without_data (double [EvResponse 200; EvData "{}"; EvEnd]) a_client
           "GET" "/api/ping" VUndefined (default_url "/api/ping")
           [EvResponse 200; EvData "{}"; EvEnd]); reflexivity.
Defined.

(** X17. An error response whose [message] is truthy and does not convert
    to a string, as an object with an entry named [toString], is reported
    as a body that does not parse: the conversion throws inside the [try],
    so the call is rejected with ["Invalid JSON response"] and the status,
    and the [errors] of the payload are lost. *)
Theorem unconvertible_message_reads_as_invalid (host : Host) (op : operation)
  (this : client) (params : value) (statusCode : Z) (text : string) (json : value)
  (e : exn) :
  responds host op this params statusCode text ->
  JSON_parse host text = inr json ->
  (400 <= statusCode)%Z ->
  nullish json = false ->
  truthy (field json "message") = true ->
  ToString host (field json "message") = inl e ->
  outcome (call host op this params)
    = Some (Rejected (OhmyfinError "Invalid JSON response" statusCode VUndefined)).
Proof.
  intros Hr Hp Hst Hn Hm Hs.
  rewrite (responds_outcome host op this params statusCode text Hr).
  unfold on_end, lift. rewrite Hp. simpl.
  destruct (Z.leb_spec 400 statusCode) as [_ | Hlt]; [| lia].
  rewrite !(get_prop_field json _ Hn). simpl.
  rewrite new_OhmyfinError_truthy by (apply truthy_js_or; reflexivity).
  unfold js_or. rewrite Hm, Hs. reflexivity.
Qed.

Lemma stubborn_responds (op : operation) (statusCode : Z) (text : string) :
  responds (stubborn_double [EvResponse statusCode; EvData text; EvEnd])
    op a_client (params_of op) statusCode text.
Proof.
  exists "POST", (path_of op), (params_of op), (default_url (path_of op)),
    [text], [].
  destruct op; repeat split; reflexivity.
Qed.

Lemma unconvertible_message_reads_as_invalid_witness :
  field stubborn_payload "errors" = VObj [("ref", VArr [VStr "bad"])] /\
  outcome (call (stubborn_double [EvResponse 422; EvData doc_stubborn; EvEnd]) Track
             a_client a_track)
    = Some (Rejected (OhmyfinError "Invalid JSON response" 422 VUndefined)).
Proof.
  split; [reflexivity |].
  apply (unconvertible_message_reads_as_invalid
           (stubborn_double [EvResponse 422; EvData doc_stubborn; EvEnd]) Track
           a_client a_track 422 doc_stubborn stubborn_payload
           (TypeError "Cannot convert object to primitive value"));
    [apply (stubborn_responds Track) | reflexivity | lia | reflexivity
    | reflexivity | reflexivity].
Defined.

(** ** The timeout *)



